(** * GS3DScreenshot: capture of a triangle batch and its export as OBJ/MTL

    A shallow embedding of [pcsx2/GS/GS3DScreenshot.h] and
    [pcsx2/GS/GS3DScreenshot.cpp], and the properties of the batch
    accumulator, the wrap-region resolver and the serializer. *)

From Stdlib Require Import ZArith Lia QArith SpecFloat.
From stdpp Require Import base gmap strings list pretty.

Local Open Scope Z_scope.

(** ** Machine integers

    Unsigned integers are integers of [Z] with the wrap-around of the
    C++ conversions written out. *)

Definition to_u32 (z : Z) : Z := z mod 2 ^ 32.
Definition to_u16 (z : Z) : Z := z mod 2 ^ 16.

Definition is_u32 (z : Z) : Prop := 0 <= z < 2 ^ 32.

(** [n] is a power of two. *)
Definition is_pow2 (n : Z) : Prop := exists k, 0 <= k /\ n = 2 ^ k.

(** ** Wrap modes and the CLAMP register *)

(** Modelled from the spec: GSRegs.h, which declares the wrap-mode
    constants and [GIFRegCLAMP], is not among the sources.  The four
    wrap-mode variants of the glossary are the values of the two-bit
    selector fields. *)
Inductive ClampMode : Set :=
  | CLAMP_REPEAT
  | CLAMP_CLAMP
  | CLAMP_REGION_CLAMP
  | CLAMP_REGION_REPEAT.

(** Modelled from the spec: the CLAMP register as the record of its bit
    fields, a wrap-mode selector and two unsigned parameter fields per
    axis. *)
Record GIFRegCLAMP : Set := {
  WMS : ClampMode;
  WMT : ClampMode;
  MINU : Z;
  MAXU : Z;
  MINV : Z;
  MAXV : Z
}.

(** The parameter fields are 10 bits wide. *)
Definition is_field10 (z : Z) : Prop := 0 <= z < 2 ^ 10.

Definition clamp_wf (c : GIFRegCLAMP) : Prop :=
  is_field10 (MINU c) /\ is_field10 (MAXU c) /\
  is_field10 (MINV c) /\ is_field10 (MAXV c).

(** ** Texture regions *)

Record TextureRegion : Set := {
  u_min : Z;
  u_max : Z;
  v_min : Z;
  v_max : Z
}.

(** [u32 Width() const], [u32 Height() const]: the operands are
    promoted to [int], the result is converted to [u32]. *)
Definition Width (r : TextureRegion) : Z := to_u32 (u_max r - u_min r + 1).
Definition Height (r : TextureRegion) : Z := to_u32 (v_max r - v_min r + 1).

(** [TextureRegion::operator==]; the last comparison reads
    [other.u_max], as the source does. *)
Definition TextureRegion_eq (this other : TextureRegion) : bool :=
  (u_min this =? u_min other) && (u_max this =? u_max other) &&
  (v_min this =? v_min other) && (v_max this =? u_max other).

(** ** The wrap-region resolver *)

(** One iteration of the loop of [GetTextureRegionForCLAMP]: the values
    of [min] and [max] at the end of the body, for the wrap mode [WM],
    the parameters [MIN] and [MAX] and the dimension [dim] of the axis.
    All of them are [u32]. *)
Definition axis_region (WM : ClampMode) (MIN MAX dim : Z) : Z * Z :=
  let '(min, max) :=
    match WM with
    | CLAMP_REGION_CLAMP => (MIN, MAX)
    | CLAMP_REGION_REPEAT =>
        let MSK := MIN in
        let FIX := MAX in
        if (Z.land (to_u32 (MSK + 1)) MSK =? 0) && (Z.land FIX MSK =? 0)
        then (FIX, to_u32 (FIX + MSK))
        else (0, to_u32 (dim - 1))
    | CLAMP_CLAMP | CLAMP_REPEAT => (0, to_u32 (dim - 1))
    end in
  let max := Z.min max (to_u32 (dim - 1)) in
  let min := Z.min min max in
  (min, max).

(** The loop runs twice, for the u direction and for the v direction;
    the results are stored in the [u16] fields of the region. *)
Definition GetTextureRegionForCLAMP (CLAMP : GIFRegCLAMP) (twidth theight : Z)
  : TextureRegion :=
  let '(umin, umax) :=
    axis_region (WMS CLAMP) (to_u32 (MINU CLAMP)) (to_u32 (MAXU CLAMP)) twidth in
  let '(vmin, vmax) :=
    axis_region (WMT CLAMP) (to_u32 (MINV CLAMP)) (to_u32 (MAXV CLAMP)) theight in
  {| u_min := to_u16 umin; u_max := to_u16 umax;
     v_min := to_u16 vmin; v_max := to_u16 vmax |}.

(** [x] clamped to the interval from [lo] to [hi]. *)
Definition clamp_to (lo hi x : Z) : Z := Z.max lo (Z.min x hi).

(** ** Floating-point arithmetic

    The operations of the type [float] that the source uses.  The
    accumulator and the serializer are written over this interface; it
    is instantiated below with IEEE 754 binary32, the arithmetic of the
    source, and with the rationals, the same operations without
    rounding. *)
Class FloatOps (F : Type) : Type := {
  f_of_Z : Z -> F;          (* conversion of an integer to [float] *)
  f_opp : F -> F;
  f_add : F -> F -> F;
  f_sub : F -> F -> F;
  f_mul : F -> F -> F;
  f_div : F -> F -> F
}.

(** The formatting library fmt is not among the sources: its
    renderings of a [float] for the replacement fields [{}] and
    [{:.3f}] are parameters. *)
Class FloatFormat (F : Type) : Type := {
  fmt_default : F -> string;
  fmt_fixed3 : F -> string
}.

(** ** Vertices and triangles *)

Module Vert.
Record t {F : Type} : Type := mk {
  x : F; y : F; z : F; q : F;
  u : F; v : F;
  r : Z; g : Z; b : Z; a : Z
}.
Arguments t : clear implicits.
Arguments mk {F}.
End Vert.
Abbreviation Vert := Vert.t.

(** [Vert verts[3]]: an array of three vertices. *)
Definition Verts (F : Type) : Type := (Vert F * Vert F * Vert F)%type.

Definition verts_map {F : Type} (f : Vert F -> Vert F) (vs : Verts F) : Verts F :=
  let '(a, b, c) := vs in (f a, f b, f c).

(** The vertices in the order of the index, [verts[0]] to [verts[2]]. *)
Definition verts_list {F : Type} (vs : Verts F) : list (Vert F) :=
  let '(a, b, c) := vs in [a; b; c].

Record Tri {F : Type} : Type := {
  verts : Verts F;
  culled : bool;
  texture_enabled : bool;
  texture_index : Z
}.
Arguments Tri : clear implicits.

(** ** The batch *)

Record GS3DScreenshot {F : Type} : Type := {
  m_dump_dir : string;
  m_tri_was_culled : list bool;
  m_tris : list (Tri F);
  m_textures : list string;
  m_cur_texture_index : Z;
  m_texture_map : gmap string Z;
  m_dump_directory : string;
  m_u_offset : F;
  m_v_offset : F;
  m_u_scale : F;
  m_v_scale : F
}.
Arguments GS3DScreenshot : clear implicits.

(** [std::unordered_map::insert]: the pair is inserted when the key is
    absent; the result is the value now stored under the key
    ([it->second]), whether the insertion took place, and the map. *)
Definition map_insert (k : string) (v : Z) (m : gmap string Z)
  : Z * bool * gmap string Z :=
  match m !! k with
  | Some v' => (v', false, m)
  | None => (v, true, <[k := v]> m)
  end.

Section Batch.
Context {F : Type} `{FloatOps F}.

(** A freshly constructed batch.  [m_cur_texture_index] has no
    initializer: its first value [cur0] is indeterminate.  The four
    members of the UV transform have the initializers [0.0f], [0.0f],
    [1.0f] and [1.0f]. *)
Definition GS3DScreenshot_new (cur0 : Z) : GS3DScreenshot F :=
  {| m_dump_dir := "";
     m_tri_was_culled := [];
     m_tris := [];
     m_textures := [];
     m_cur_texture_index := cur0;
     m_texture_map := ∅;
     m_dump_directory := "";
     m_u_offset := f_of_Z 0;
     m_v_offset := f_of_Z 0;
     m_u_scale := f_of_Z 1;
     m_v_scale := f_of_Z 1 |}.

Definition IsEmpty (s : GS3DScreenshot F) : bool :=
  match m_tris s with [] => true | _ :: _ => false end.

Definition SetTextureName (new_name : string) (s : GS3DScreenshot F)
  : GS3DScreenshot F :=
  let next_texture_index := to_u32 (Z.of_nat (length (m_textures s))) in
  let '(it_second, inserted, texture_map) :=
    map_insert new_name next_texture_index (m_texture_map s) in
  {| m_dump_dir := m_dump_dir s;
     m_tri_was_culled := m_tri_was_culled s;
     m_tris := m_tris s;
     m_textures :=
       if inserted : bool then m_textures s ++ [new_name] else m_textures s;
     m_cur_texture_index := it_second;
     m_texture_map := texture_map;
     m_dump_directory := m_dump_directory s;
     m_u_offset := m_u_offset s;
     m_v_offset := m_v_offset s;
     m_u_scale := m_u_scale s;
     m_v_scale := m_v_scale s |}.

(** The bounds of the region are [u16] and are promoted to [int] in
    the differences; [twidth] and [theight] are [u32]. *)
Definition SetTextureRegion (region : TextureRegion) (twidth theight : Z)
    (s : GS3DScreenshot F) : GS3DScreenshot F :=
  {| m_dump_dir := m_dump_dir s;
     m_tri_was_culled := m_tri_was_culled s;
     m_tris := m_tris s;
     m_textures := m_textures s;
     m_cur_texture_index := m_cur_texture_index s;
     m_texture_map := m_texture_map s;
     m_dump_directory := m_dump_directory s;
     m_u_offset := f_div (f_opp (f_of_Z (u_min region))) (f_of_Z twidth);
     m_v_offset := f_div (f_opp (f_of_Z (v_min region))) (f_of_Z theight);
     m_u_scale :=
       f_div (f_of_Z twidth) (f_of_Z (u_max region - u_min region + 1));
     m_v_scale :=
       f_div (f_of_Z theight) (f_of_Z (v_max region - v_min region + 1)) |}.

(** The body of the loop of [AddTri] on one vertex. *)
Definition remap_vert (s : GS3DScreenshot F) (vt : Vert F) : Vert F :=
  let u := f_add (Vert.u vt) (m_u_offset s) in
  let v := f_add (Vert.v vt) (m_v_offset s) in
  let u := f_mul u (m_u_scale s) in
  let v := f_mul v (m_v_scale s) in
  Vert.mk (Vert.x vt) (Vert.y vt) (Vert.z vt) (Vert.q vt) u v
          (Vert.r vt) (Vert.g vt) (Vert.b vt) (Vert.a vt).

(** The triangle that [AddTri] stores. *)
Definition stamp_tri (s : GS3DScreenshot F) (tri : Tri F) : Tri F :=
  if texture_enabled tri
  then {| verts := verts_map (remap_vert s) (verts tri);
          culled := culled tri;
          texture_enabled := texture_enabled tri;
          texture_index := m_cur_texture_index s |}
  else tri.

Definition AddTri (tri : Tri F) (s : GS3DScreenshot F) : GS3DScreenshot F :=
  {| m_dump_dir := m_dump_dir s;
     m_tri_was_culled := m_tri_was_culled s;
     m_tris := m_tris s ++ [stamp_tri s tri];
     m_textures := m_textures s;
     m_cur_texture_index := m_cur_texture_index s;
     m_texture_map := m_texture_map s;
     m_dump_directory := m_dump_directory s;
     m_u_offset := m_u_offset s;
     m_v_offset := m_v_offset s;
     m_u_scale := m_u_scale s;
     m_v_scale := m_v_scale s |}.

(** *** Sequences of calls on a batch *)

Inductive Call : Type :=
  | CallSetTextureName (new_name : string)
  | CallSetTextureRegion (region : TextureRegion) (twidth theight : Z)
  | CallAddTri (tri : Tri F).

Definition call (c : Call) (s : GS3DScreenshot F) : GS3DScreenshot F :=
  match c with
  | CallSetTextureName new_name => SetTextureName new_name s
  | CallSetTextureRegion region twidth theight =>
      SetTextureRegion region twidth theight s
  | CallAddTri tri => AddTri tri s
  end.

Definition run_calls (cs : list Call) (s : GS3DScreenshot F)
  : GS3DScreenshot F :=
  fold_left (fun s c => call c s) cs s.

(** The states reachable from a freshly constructed batch. *)
Inductive reachable : GS3DScreenshot F -> Prop :=
  | reachable_new cur0 : is_u32 cur0 -> reachable (GS3DScreenshot_new cur0)
  | reachable_call c s : reachable s -> reachable (call c s).

(** In [cs], no triangle with textures enabled is added before a
    texture has been named; [named] tells whether one has been named
    before [cs]. *)
Fixpoint named_before_textured (named : bool) (cs : list Call) : bool :=
  match cs with
  | [] => true
  | CallSetTextureName _ :: cs => named_before_textured true cs
  | CallSetTextureRegion _ _ _ :: cs => named_before_textured named cs
  | CallAddTri tri :: cs =>
      (negb (texture_enabled tri) || named) && named_before_textured named cs
  end.

(** No call of [cs] sets a texture region. *)
Definition no_region_call (cs : list Call) : bool :=
  forallb (fun c => match c with
                    | CallSetTextureRegion _ _ _ => false
                    | _ => true
                    end) cs.

(** The texture index of a stored triangle refers to the texture
    table. *)
Definition tri_index_valid (s : GS3DScreenshot F) (tri : Tri F) : Prop :=
  texture_enabled tri = true ->
  0 <= texture_index tri < Z.of_nat (length (m_textures s)).

(** The names given to [SetTextureName] by the calls [cs], in order. *)
Definition names_of (cs : list Call) : list string :=
  flat_map (fun c => match c with
                     | CallSetTextureName new_name => [new_name]
                     | _ => []
                     end) cs.

(** The names in the order in which they are first seen. *)
Fixpoint first_seen (seen names : list string) : list string :=
  match names with
  | [] => seen
  | n :: names =>
      first_seen (if bool_decide (n ∈ seen) then seen else seen ++ [n]) names
  end.

(** The keys of the map are the names of the table. *)
Definition names_registered (s : GS3DScreenshot F) : Prop :=
  forall name, name ∈ m_textures s <-> is_Some (m_texture_map s !! name).

(** The invariant of the accumulator: the indices of the map and of
    the stored triangles refer to the table, and so does the current
    index once a texture has been named. *)
Definition indices_valid (named : bool) (s : GS3DScreenshot F) : Prop :=
  (forall name idx, m_texture_map s !! name = Some idx ->
                    0 <= idx < Z.of_nat (length (m_textures s)))
  /\ Forall (tri_index_valid s) (m_tris s)
  /\ (named = true ->
      0 <= m_cur_texture_index s < Z.of_nat (length (m_textures s))).

(** A white vertex at the position [(x, y, 0)] with the texture
    coordinates [uv], and the triangle of the positions (0, 0, 0),
    (1, 0, 0) and (0, 1, 0) with the given texture coordinates. *)
Definition vert_at (x y : Z) (uv : F * F) : Vert F :=
  Vert.mk (f_of_Z x) (f_of_Z y) (f_of_Z 0) (f_of_Z 1) (fst uv) (snd uv)
          255 255 255 255.

Definition vert_uv (uv : F * F) : Vert F := vert_at 0 0 uv.

Definition tri_uv (culled textured : bool) (uv1 uv2 uv3 : F * F) : Tri F :=
  {| verts := (vert_at 0 0 uv1, vert_at 1 0 uv2, vert_at 0 1 uv3);
     culled := culled;
     texture_enabled := textured;
     texture_index := 0 |}.
End Batch.

Arguments Call : clear implicits.

(** ** The geometry file

    The directives of the geometry file, one constructor per format
    string of [DumpOBJ]. *)
Inductive ObjLine {F : Type} : Type :=
  | ObjHeader                        (* # PCSX2 3D Screenshot *)
  | ObjMtllib (filename : string)    (* mtllib {}.mtl *)
  | ObjV (x y z r g b : F)           (* v {} {} {} {:.3f} {:.3f} {:.3f} *)
  | ObjVt (u v : F)                  (* vt {} {} *)
  | ObjG (culled : bool)             (* g Culled, g Normal *)
  | ObjUsemtl (texture : option Z)   (* usemtl NoTexture, usemtl {} *)
  | ObjF (c1 c2 c3 : Z * Z).         (* f -3/-3 -1/-1 -2/-2 *)
Arguments ObjLine : clear implicits.

Definition nl : string := String (Ascii.ascii_of_nat 10) "".

Definition concat_strings (l : list string) : string :=
  fold_right String.append "" l.

(** Modelled from the spec: common/FileSystem.h is not among the
    sources.  A disk tells which paths can be opened for writing and
    holds the contents of the files; opening a file for writing and
    printing [text] to it leaves [text] as its contents. *)
Record Disk : Type := {
  can_open : string -> bool;
  contents : gmap string string
}.

Definition write_file (path text : string) (d : Disk) : Disk :=
  {| can_open := can_open d; contents := <[path := text]> (contents d) |}.

Section Serializer.
Context {F : Type} `{FloatOps F} `{FloatFormat F}.

(** [Path::Combine] of common/Path.h, which is not among the
    sources. *)
Variable Path_Combine : string -> string -> string.

Definition obj_v (vt : Vert F) : ObjLine F :=
  ObjV (Vert.x vt) (Vert.y vt) (Vert.z vt)
       (f_div (f_of_Z (Vert.r vt)) (f_of_Z 255))
       (f_div (f_of_Z (Vert.g vt)) (f_of_Z 255))
       (f_div (f_of_Z (Vert.b vt)) (f_of_Z 255)).

Definition obj_vt (vt : Vert F) : ObjLine F :=
  ObjVt (Vert.u vt) (f_sub (f_of_Z 1) (Vert.v vt)).

(** [i == 0 || m_tris[i-1].culled != tri.culled], where [last] is
    [m_tris[i-1]], and is absent when [i] is 0. *)
Definition group_changes (last : option (Tri F)) (tri : Tri F) : bool :=
  match last with
  | None => true
  | Some l => negb (eqb (culled l) (culled tri))
  end.

Definition material_changes (last : option (Tri F)) (tri : Tri F) : bool :=
  match last with
  | None => true
  | Some l =>
      negb (eqb (texture_enabled l) (texture_enabled tri))
      || negb (texture_index l =? texture_index tri)
  end.

(** The body of the loop of [DumpOBJ] for the triangle [tri]. *)
Definition obj_tri_lines (last : option (Tri F)) (tri : Tri F)
  : list (ObjLine F) :=
  map obj_v (verts_list (verts tri))
  ++ map obj_vt (verts_list (verts tri))
  ++ (if group_changes last tri then [ObjG (culled tri)] else [])
  ++ (if material_changes last tri
      then [ObjUsemtl (if texture_enabled tri
                       then Some (texture_index tri) else None)]
      else [])
  ++ [ObjF (-3, -3) (-1, -1) (-2, -2)].

(** The loop of [DumpOBJ] from the triangle after [last] on. *)
Fixpoint obj_tris_lines (last : option (Tri F)) (tris : list (Tri F))
  : list (ObjLine F) :=
  match tris with
  | [] => []
  | tri :: tris => obj_tri_lines last tri ++ obj_tris_lines (Some tri) tris
  end.

Definition DumpOBJ_lines (filename : string) (s : GS3DScreenshot F)
  : list (ObjLine F) :=
  ObjHeader :: ObjMtllib filename :: obj_tris_lines None (m_tris s).

Definition fmt_corner (c : Z * Z) : string :=
  pretty (fst c) +:+ "/" +:+ pretty (snd c).

(** The text of a directive.  [m_textures[tri.texture_index]] has no
    defined behaviour when the index is not in the table: there is no
    text then. *)
Definition fmt_obj_line (textures : list string) (l : ObjLine F)
  : option string :=
  match l with
  | ObjHeader => Some ("# PCSX2 3D Screenshot" +:+ nl)
  | ObjMtllib filename => Some ("mtllib " +:+ filename +:+ ".mtl" +:+ nl +:+ nl)
  | ObjV x y z r g b =>
      Some ("v " +:+ fmt_default x +:+ " " +:+ fmt_default y +:+ " "
            +:+ fmt_default z +:+ " " +:+ fmt_fixed3 r +:+ " "
            +:+ fmt_fixed3 g +:+ " " +:+ fmt_fixed3 b +:+ nl)
  | ObjVt u v => Some ("vt " +:+ fmt_default u +:+ " " +:+ fmt_default v +:+ nl)
  | ObjG culled => Some ("g " +:+ (if culled then "Culled" else "Normal") +:+ nl)
  | ObjUsemtl None => Some ("usemtl NoTexture" +:+ nl)
  | ObjUsemtl (Some i) =>
      if 0 <=? i
      then name ← textures !! Z.to_nat i; Some ("usemtl " +:+ name +:+ nl)
      else None
  | ObjF c1 c2 c3 =>
      Some ("f " +:+ fmt_corner c1 +:+ " " +:+ fmt_corner c2 +:+ " "
            +:+ fmt_corner c3 +:+ nl +:+ nl)
  end.

Definition DumpOBJ_text (filename : string) (s : GS3DScreenshot F)
  : option string :=
  concat_strings <$> mapM (fmt_obj_line (m_textures s)) (DumpOBJ_lines filename s).

Definition DumpMTL_text (s : GS3DScreenshot F) : string :=
  "newmtl NoTexture" +:+ nl +:+ "Kd 1 1 1" +:+ nl +:+ nl
  +:+ concat_strings
        (map (fun texture =>
                "newmtl " +:+ texture +:+ nl
                +:+ "map_Kd " +:+ texture +:+ nl +:+ nl)
             (m_textures s)).

Definition OBJ_path (filename : string) (s : GS3DScreenshot F) : string :=
  Path_Combine (m_dump_dir s) (filename +:+ ".obj").

Definition MTL_path (filename : string) (s : GS3DScreenshot F) : string :=
  Path_Combine (m_dump_dir s) (filename +:+ ".mtl").

(** The result of a dump and the disk after it; nothing when the
    behaviour is not defined. *)
Definition DumpOBJ (filename : string) (s : GS3DScreenshot F) (d : Disk)
  : option (bool * Disk) :=
  let path := OBJ_path filename s in
  if can_open d path
  then text ← DumpOBJ_text filename s; Some (true, write_file path text d)
  else Some (false, d).

Definition DumpMTL (filename : string) (s : GS3DScreenshot F) (d : Disk)
  : option (bool * Disk) :=
  let path := MTL_path filename s in
  if can_open d path
  then Some (true, write_file path (DumpMTL_text s) d)
  else Some (false, d).

(** [DumpOBJ(filename) && DumpMTL(filename)] *)
Definition DumpToFile (filename : string) (s : GS3DScreenshot F) (d : Disk)
  : option (bool * Disk) :=
  '(ok, d) ← DumpOBJ filename s d;
  if ok : bool then DumpMTL filename s d else Some (false, d).

(** A batch and the disk it is dumped to.  [DumpToFile] is a [const]
    member function: the call returns the batch it was given. *)
Record World : Type := { batch : GS3DScreenshot F; disk : Disk }.

Definition dump (filename : string) (w : World) : option (bool * World) :=
  '(ok, d) ← DumpToFile filename (batch w) (disk w);
  Some (ok, {| batch := batch w; disk := d |}).

(** *** Reading a geometry file

    The reading of the vertex, texture-coordinate and face directives
    in the OBJ format.  An index of a face record refers to the
    elements read before it: a positive index counts from the first
    one, from 1 on, and a negative index counts back from the most
    recent one, which is -1. *)
Definition obj_index {A : Type} (l : list A) (k : Z) : option A :=
  if 0 <? k then l !! Z.to_nat (k - 1)
  else if (k <? 0) && (0 <=? Z.of_nat (length l) + k)
       then l !! Z.to_nat (Z.of_nat (length l) + k)
       else None.

(** A corner of a face: the vertex directive and the
    texture-coordinate directive it refers to. *)
Definition ObjCorner : Type := (option (ObjLine F) * option (ObjLine F))%type.

Record ObjScene : Type := {
  scene_v : list (ObjLine F);
  scene_vt : list (ObjLine F);
  scene_f : list (ObjCorner * ObjCorner * ObjCorner)
}.

Definition obj_corner (sc : ObjScene) (c : Z * Z) : ObjCorner :=
  (obj_index (scene_v sc) (fst c), obj_index (scene_vt sc) (snd c)).

Definition obj_read_line (sc : ObjScene) (l : ObjLine F) : ObjScene :=
  match l with
  | ObjV _ _ _ _ _ _ =>
      {| scene_v := scene_v sc ++ [l]; scene_vt := scene_vt sc;
         scene_f := scene_f sc |}
  | ObjVt _ _ =>
      {| scene_v := scene_v sc; scene_vt := scene_vt sc ++ [l];
         scene_f := scene_f sc |}
  | ObjF c1 c2 c3 =>
      {| scene_v := scene_v sc; scene_vt := scene_vt sc;
         scene_f := scene_f sc
                    ++ [(obj_corner sc c1, obj_corner sc c2, obj_corner sc c3)] |}
  | _ => sc
  end.

Definition obj_read (ls : list (ObjLine F)) : ObjScene :=
  fold_left obj_read_line ls {| scene_v := []; scene_vt := []; scene_f := [] |}.

(** The corner of a face that refers to the vertex [vt]. *)
Definition corner_of (vt : Vert F) : ObjCorner :=
  (Some (obj_v vt), Some (obj_vt vt)).

(** The face of a triangle in the order first, third, second of its
    vertices, and in the order third, first, second. *)
Definition face_132 (tri : Tri F) : ObjCorner * ObjCorner * ObjCorner :=
  let '(v1, v2, v3) := verts tri in (corner_of v1, corner_of v3, corner_of v2).

Definition face_312 (tri : Tri F) : ObjCorner * ObjCorner * ObjCorner :=
  let '(v1, v2, v3) := verts tri in (corner_of v3, corner_of v1, corner_of v2).

(** [m_tris[i-1]], for the index [i] of the loop. *)
Definition last_tri (tris : list (Tri F)) (i : nat) : option (Tri F) :=
  match i with
  | O => None
  | S j => tris !! j
  end.

(** The directives printed by each iteration of the loop. *)
Definition obj_blocks (tris : list (Tri F)) : list (list (ObjLine F)) :=
  imap (fun i tri => obj_tri_lines (last_tri tris i) tri) tris.

(** The triangle [m_tris[i]] is the first one, or its [culled] flag
    is not that of the triangle before it. *)
Definition first_or_culled_changes (tris : list (Tri F)) (i : nat) (tri : Tri F)
  : Prop :=
  i = O \/ exists j prev,
             i = S j /\ tris !! j = Some prev /\ culled prev <> culled tri.

Definition is_face (l : ObjLine F) : bool :=
  match l with ObjF _ _ _ => true | _ => false end.

Definition is_group (l : ObjLine F) : bool :=
  match l with ObjG _ => true | _ => false end.

(** The group directives among [ls]. *)
Definition groups_of (ls : list (ObjLine F)) : list (ObjLine F) :=
  List.filter is_group ls.
End Serializer.

(** ** The two arithmetics *)

(** IEEE 754 binary32: 24 bits of precision, exponents below 128. *)
Definition binary32 : Type := spec_float.

#[export] Instance binary32_ops : FloatOps binary32 := {|
  f_of_Z z := binary_normalize 24 128 z 0 false;
  f_opp := SFopp;
  f_add := SFadd 24 128;
  f_sub := SFsub 24 128;
  f_mul := SFmul 24 128;
  f_div := SFdiv 24 128
|}.

(** The rationals: the operations of [float] without rounding. *)
#[export] Instance exact_ops : FloatOps Q := {|
  f_of_Z := inject_Z;
  f_opp := Qopp;
  f_add := Qplus;
  f_sub := Qminus;
  f_mul := Qmult;
  f_div := Qdiv
|}.

(** The binary32 value [stored] is the number [given]: it is the same
    value, or the positive zero for the negative zero, which is the
    same number. *)
Definition binary32_same (stored given : binary32) : Prop :=
  stored = given \/ (given = S754_zero true /\ stored = S754_zero false).

(** ** Statements on the resolver *)

(** What the spec says of an axis in region-repeat mode: [lo] and [hi]
    are the bounds returned for the parameters [MSK] and [FIX] and the
    dimension [dim]. *)
Definition repeat_axis_spec (MSK FIX dim lo hi : Z) : Prop :=
  (is_pow2 (MSK + 1) /\ Z.land FIX MSK = 0 ->
   lo = clamp_to 0 (dim - 1) FIX /\ hi = clamp_to 0 (dim - 1) (FIX + MSK))
  /\
  (~ (is_pow2 (MSK + 1) /\ Z.land FIX MSK = 0) ->
   lo = 0 /\ hi = dim - 1).

(** What the spec says of an axis in region-clamp mode: the bounds
    [MIN] and [MAX], clamped; they are returned as they are when they
    are in order and inside the texture. *)
Definition clamp_axis_spec (MIN MAX dim lo hi : Z) : Prop :=
  hi = Z.min MAX (dim - 1) /\
  lo = Z.min (Z.min MIN (dim - 1)) hi /\
  0 <= lo <= hi /\ hi <= dim - 1 /\
  (MIN <= MAX <= dim - 1 -> lo = MIN /\ hi = MAX).

(** Registers and regions the statements are tried on. *)
Definition clamp_repeat_8_15 : GIFRegCLAMP :=
  {| WMS := CLAMP_REGION_REPEAT; WMT := CLAMP_REGION_REPEAT;
     MINU := 7; MAXU := 8; MINV := 7; MAXV := 9 |}.

Definition clamp_region_20_300 : GIFRegCLAMP :=
  {| WMS := CLAMP_REGION_CLAMP; WMT := CLAMP_REGION_CLAMP;
     MINU := 20; MAXU := 300; MINV := 500; MAXV := 40 |}.

Definition region_8_15 : TextureRegion :=
  {| u_min := 8; u_max := 15; v_min := 8; v_max := 15 |}.

Definition region_0_7_0_3 : TextureRegion :=
  {| u_min := 0; u_max := 7; v_min := 0; v_max := 3 |}.

(** ** Statements on the UV transform *)

(** The valid binary32 values: the finite ones are in canonical form. *)
Definition binary32_valid (x : binary32) : Prop := valid_binary 24 128 x = true.

(** The texture coordinates of [vt] are those of [vt'], as numbers. *)
Definition uv_unchanged (vt vt' : Vert binary32) : Prop :=
  binary32_same (Vert.u vt') (Vert.u vt) /\ binary32_same (Vert.v vt') (Vert.v vt).

(** In arithmetic without rounding: the vertex [vt], stored as [vt'],
    goes to 0 on an axis when its normalized coordinate is the lower
    bound of the region over the dimension of the texture, and to 1
    when it is the upper bound plus one over the dimension. *)
Definition corners_to_unit (region : TextureRegion) (twidth theight : Z)
    (vt vt' : Vert Q) : Prop :=
  ((Vert.u vt == inject_Z (u_min region) / inject_Z twidth ->
    Vert.u vt' == 0)
   /\ (Vert.v vt == inject_Z (v_min region) / inject_Z theight ->
       Vert.v vt' == 0)
   /\ (Vert.u vt == inject_Z (u_max region + 1) / inject_Z twidth ->
       Vert.u vt' == 1)
   /\ (Vert.v vt == inject_Z (v_max region + 1) / inject_Z theight ->
       Vert.v vt' == 1))%Q.

(** The transform that [AddTri] applies after [SetTextureRegion], in
    arithmetic without rounding. *)
Definition uv_transform (region : TextureRegion) (twidth theight : Z)
    (vt vt' : Vert Q) : Prop :=
  (Vert.u vt'
   == (Vert.u vt + - inject_Z (u_min region) / inject_Z twidth)
      * (inject_Z twidth / inject_Z (u_max region - u_min region + 1))
   /\ Vert.v vt'
      == (Vert.v vt + - inject_Z (v_min region) / inject_Z theight)
         * (inject_Z theight / inject_Z (v_max region - v_min region + 1)))%Q.

(** *** The corners of a region in binary32 *)

Definition binary32_is_zero (x : binary32) : bool :=
  match x with S754_zero _ => true | _ => false end.

(** The zeros and the finite values, as against the infinities and
    NaN. *)
Definition binary32_is_finite (x : binary32) : bool :=
  match x with S754_zero _ | S754_finite _ _ _ => true | _ => false end.

(** [x] is at most 2^-18 away from 1. *)
Definition binary32_near_one (x : binary32) : bool :=
  SFleb (S754_finite false 16777152 (-24)) x
  && SFleb x (S754_finite false 8388640 (-23)).

(** For the region from [lo] to [hi] on both axes of a texture of
    [dim] by [dim] texels: the vertex with the coordinates [lo / dim]
    is stored with coordinates that are zeros, and the vertex with the
    coordinates [(hi + 1) / dim] with coordinates near 1. *)
Definition corners_in_binary32 (lo hi dim : Z) : bool :=
  let region := {| u_min := lo; u_max := hi; v_min := lo; v_max := hi |} in
  let s : GS3DScreenshot binary32 :=
    SetTextureRegion region dim dim (GS3DScreenshot_new 0) in
  let lower := f_div (f_of_Z lo) (f_of_Z dim) in
  let upper := f_div (f_of_Z (hi + 1)) (f_of_Z dim) in
  let vt0 := remap_vert s (vert_uv (lower, lower)) in
  let vt1 := remap_vert s (vert_uv (upper, upper)) in
  binary32_is_zero (Vert.u vt0) && binary32_is_zero (Vert.v vt0)
  && binary32_near_one (Vert.u vt1) && binary32_near_one (Vert.v vt1).

(** The regions [(lo, hi, dim)] with [lo <= hi < dim <= n]. *)
Definition regions_upto (n : nat) : list (Z * Z * Z) :=
  flat_map (fun dim =>
    flat_map (fun lo =>
      List.map (fun hi => (Z.of_nat lo, Z.of_nat hi, Z.of_nat dim))
               (seq lo (dim - lo)))
      (seq 0 dim))
    (seq 1 n).

(** ** Batches the statements are tried on *)

(** A rendering of binary32 values and a composition of paths, to run
    the serializer with; the statements on the serializer hold for any
    rendering and any composition. *)
Definition binary32_show (x : binary32) : string :=
  match x with
  | S754_zero s => if s then "-0" else "0"
  | S754_infinity s => if s then "-inf" else "inf"
  | S754_nan => "nan"
  | S754_finite s m e =>
      (if s then "-" else "") +:+ pretty (Zpos m) +:+ "p" +:+ pretty e
  end.

#[export] Instance binary32_format : FloatFormat binary32 := {|
  fmt_default := binary32_show;
  fmt_fixed3 := binary32_show
|}.

Definition join_path (dir file : string) : string := dir +:+ "/" +:+ file.

Definition open_disk : Disk := {| can_open := fun _ => true; contents := ∅ |}.

(** A triangle with textures enabled whose vertices have the texel
    coordinates (8, 8), (16, 16) and (8, 16), and the batch with the
    region from 8 to 15 of a texture of 64 by 64 texels. *)
Definition texel_tri : Tri binary32 :=
  tri_uv false true (f_of_Z 8, f_of_Z 8) (f_of_Z 16, f_of_Z 16)
         (f_of_Z 8, f_of_Z 16).

Definition batch_8_15 : GS3DScreenshot binary32 :=
  SetTextureRegion region_8_15 64 64
    (SetTextureName "tex0" (GS3DScreenshot_new 0)).

(** The same coordinates over the dimension of the texture, in
    binary32 and in the rationals. *)
Definition normalized_tri : Tri binary32 :=
  tri_uv false true
         (f_div (f_of_Z 8) (f_of_Z 64), f_div (f_of_Z 8) (f_of_Z 64))
         (f_div (f_of_Z 16) (f_of_Z 64), f_div (f_of_Z 16) (f_of_Z 64))
         (f_div (f_of_Z 8) (f_of_Z 64), f_div (f_of_Z 16) (f_of_Z 64)).

Definition normalized_tri_exact : Tri Q :=
  tri_uv false true (8 # 64, 8 # 64)%Q (16 # 64, 16 # 64)%Q (8 # 64, 16 # 64)%Q.

(** A triangle without textures, and calls that name a texture before
    every triangle with textures. *)
Definition plain_tri (culled : bool) : Tri binary32 :=
  tri_uv culled false (f_of_Z 0, f_of_Z 0) (f_of_Z 1, f_of_Z 0)
         (f_of_Z 0, f_of_Z 1).

Definition named_calls : list (Call binary32) :=
  [ CallAddTri (plain_tri true);
    CallSetTextureName "tex0";
    CallSetTextureRegion region_8_15 64 64;
    CallAddTri normalized_tri;
    CallSetTextureName "tex1";
    CallSetTextureName "tex0";
    CallAddTri normalized_tri ].

(** Calls without a region, and three triangles, two of them culled. *)
Definition unit_tri (culled : bool) : Tri binary32 :=
  tri_uv culled true (f_of_Z 0, f_of_Z 0) (f_of_Z 1, f_of_Z 0)
         (f_of_Z 0, f_of_Z 1).

Definition culled_calls : list (Call binary32) :=
  [ CallSetTextureName "tex0";
    CallAddTri (unit_tri true);
    CallAddTri (unit_tri true);
    CallAddTri (unit_tri false) ].

Definition culled_batch : GS3DScreenshot binary32 :=
  run_calls culled_calls (GS3DScreenshot_new 0).

(** ** Further notions on the batch and its files *)

Section BatchNotions.
Context {F : Type} `{FloatOps F}.

(** The triangles given to [AddTri] by the calls [cs], in order. *)
Definition tris_of (cs : list (Call F)) : list (Tri F) :=
  flat_map (fun c => match c with
                     | CallAddTri tri => [tri]
                     | _ => []
                     end) cs.

(** The vertex [vt'] is the vertex [vt], but perhaps for its texture
    coordinates. *)
Definition same_vertex_data (vt vt' : Vert F) : Prop :=
  Vert.x vt' = Vert.x vt /\ Vert.y vt' = Vert.y vt
  /\ Vert.z vt' = Vert.z vt /\ Vert.q vt' = Vert.q vt
  /\ Vert.r vt' = Vert.r vt /\ Vert.g vt' = Vert.g vt
  /\ Vert.b vt' = Vert.b vt /\ Vert.a vt' = Vert.a vt.

(** The triangle [t] holds the triangle [tri] as [AddTri] stores it:
    its flags and the data of its vertices are those of [tri], and it
    is [tri] when [tri] has no texture. *)
Definition stored_as (tri t : Tri F) : Prop :=
  culled t = culled tri
  /\ texture_enabled t = texture_enabled tri
  /\ Forall2 same_vertex_data (verts_list (verts tri)) (verts_list (verts t))
  /\ (texture_enabled tri = false -> t = tri).

(** The map of the batch is the inverse of its table, and the table
    holds no name twice. *)
Definition table_consistent (s : GS3DScreenshot F) : Prop :=
  NoDup (m_textures s)
  /\ forall name i,
       m_texture_map s !! name = Some i
       <-> 0 <= i /\ m_textures s !! Z.to_nat i = Some name.

(** The triangle [m_tris[i]] is the first one, or its material, the
    pair of [texture_enabled] and [texture_index], is not that of the
    triangle before it. *)
Definition first_or_material_changes (tris : list (Tri F)) (i : nat)
    (tri : Tri F) : Prop :=
  i = O \/ exists j prev,
             i = S j /\ tris !! j = Some prev
             /\ (texture_enabled prev <> texture_enabled tri
                 \/ texture_index prev <> texture_index tri).

Definition is_usemtl (l : ObjLine F) : bool :=
  match l with ObjUsemtl _ => true | _ => false end.

(** The material directives among [ls]. *)
Definition usemtl_of (ls : list (ObjLine F)) : list (ObjLine F) :=
  List.filter is_usemtl ls.

(** The names of the materials that the directives [ls] select, as
    [fmt_obj_line] prints them; nothing where the index is not in the
    table. *)
Definition materials_used (textures : list string) (ls : list (ObjLine F))
  : list (option string) :=
  flat_map (fun l => match l with
                     | ObjUsemtl None => [Some "NoTexture"]
                     | ObjUsemtl (Some i) =>
                         [if 0 <=? i then textures !! Z.to_nat i else None]
                     | _ => []
                     end) ls.
End BatchNotions.

(** The directives of the material file, one constructor per format
    string of [DumpMTL]. *)
Inductive MtlLine : Type :=
  | MtlNewmtl (name : string)       (* newmtl {} *)
  | MtlKd                           (* Kd 1 1 1 *)
  | MtlMapKd (texture : string).    (* map_Kd {} *)

Definition fmt_mtl_line (l : MtlLine) : string :=
  match l with
  | MtlNewmtl name => "newmtl " +:+ name +:+ nl
  | MtlKd => "Kd 1 1 1" +:+ nl +:+ nl
  | MtlMapKd texture => "map_Kd " +:+ texture +:+ nl +:+ nl
  end.

Definition DumpMTL_lines {F : Type} (s : GS3DScreenshot F) : list MtlLine :=
  MtlNewmtl "NoTexture" :: MtlKd
  :: flat_map (fun texture => [MtlNewmtl texture; MtlMapKd texture])
              (m_textures s).

(** The names of the materials that the directives [ls] define. *)
Definition materials_defined (ls : list MtlLine) : list string :=
  flat_map (fun l => match l with
                     | MtlNewmtl name => [name]
                     | _ => []
                     end) ls.

(** A binary32 value between 0 and 1. *)
Definition binary32_in_unit (x : binary32) : bool :=
  SFleb (S754_zero false) x && SFleb x (S754_finite false 8388608 (-23)).

(** A register in the modes without a region. *)
Definition plain_mode (WM : ClampMode) : Prop :=
  WM = CLAMP_CLAMP \/ WM = CLAMP_REPEAT.

(** A register in the modes without a region, and a disk on which no
    file can be opened. *)
Definition clamp_plain : GIFRegCLAMP :=
  {| WMS := CLAMP_CLAMP; WMT := CLAMP_REPEAT;
     MINU := 3; MAXU := 900; MINV := 0; MAXV := 0 |}.

Definition locked_disk : Disk := {| can_open := fun _ => false; contents := ∅ |}.

(** * Properties *)

(** ** Bit-level facts on masks *)

Lemma to_u32_small z : 0 <= z < 2 ^ 32 -> to_u32 z = z.
Proof. intros H. unfold to_u32. apply Z.mod_small. exact H. Qed.

Lemma to_u16_small z : 0 <= z < 2 ^ 16 -> to_u16 z = z.
Proof. intros H. unfold to_u16. apply Z.mod_small. exact H. Qed.

(** A non-negative [m] with no bit in common with [m + 1] is a mask of
    low bits: [m + 1] is a power of two. *)
Lemma land_succ_zero_pow2 m :
  0 <= m -> Z.land (m + 1) m = 0 -> is_pow2 (m + 1).
Proof.
  intros Hm. pattern m. apply Zlt_0_ind; [clear m Hm | exact Hm].
  intros m IH Hm Hland.
  destruct (Z.eq_dec m 0) as [-> | Hnz].
  { exists 0. split; [lia | reflexivity]. }
  assert (Hshift : Z.land (Z.shiftr (m + 1) 1) (Z.shiftr m 1) = 0).
  { rewrite <- Z.shiftr_land, Hland. apply Z.shiftr_0_l. }
  rewrite !Z.shiftr_div_pow2 in Hshift by lia.
  change (2 ^ 1) with 2 in Hshift.
  destruct (Z.even m) eqn:Hev.
  - apply Z.even_spec in Hev. destruct Hev as [j ->].
    replace ((2 * j + 1) / 2) with j in Hshift
      by (Z.div_mod_to_equations; lia).
    replace (2 * j / 2) with j in Hshift
      by (Z.div_mod_to_equations; lia).
    rewrite Z.land_diag in Hshift. lia.
  - assert (Hodd : Z.odd m = true) by (rewrite <- Z.negb_even, Hev; reflexivity).
    apply Z.odd_spec in Hodd. destruct Hodd as [j ->].
    replace ((2 * j + 1 + 1) / 2) with (j + 1) in Hshift
      by (Z.div_mod_to_equations; lia).
    replace ((2 * j + 1) / 2) with j in Hshift
      by (Z.div_mod_to_equations; lia).
    destruct (IH j) as (k & Hk & Hjk); [lia | exact Hshift |].
    exists (k + 1). split; [lia |].
    rewrite Z.pow_add_r by lia. change (2 ^ 1) with 2. lia.
Qed.

Lemma pow2_land_pred_zero m :
  is_pow2 (m + 1) -> Z.land (m + 1) m = 0.
Proof.
  intros (k & Hk & Hmk).
  assert (Hones : m = Z.ones k) by (rewrite Z.ones_equiv; lia).
  rewrite Hmk, Hones, Z.land_ones by exact Hk.
  apply Z.mod_same. apply Z.pow_nonzero; lia.
Qed.

(** The test of the source on [MSK], for a 10-bit field. *)
Lemma mask_test_spec MSK :
  is_field10 MSK ->
  (Z.land (to_u32 (MSK + 1)) MSK =? 0) = true <-> is_pow2 (MSK + 1).
Proof.
  intros HM. unfold is_field10 in HM.
  rewrite to_u32_small by lia. rewrite Z.eqb_eq.
  split; [apply land_succ_zero_pow2; lia | apply pow2_land_pred_zero].
Qed.

(** ** The wrap-region resolver *)

Lemma axis_region_repeat MSK FIX dim :
  is_field10 MSK -> is_field10 FIX -> 1 <= dim <= 2 ^ 16 ->
  repeat_axis_spec MSK FIX dim
    (to_u16 (fst (axis_region CLAMP_REGION_REPEAT (to_u32 MSK) (to_u32 FIX) dim)))
    (to_u16 (snd (axis_region CLAMP_REGION_REPEAT (to_u32 MSK) (to_u32 FIX) dim))).
Proof.
  intros HM HF Hdim.
  pose proof (mask_test_spec MSK HM) as Hmask.
  unfold is_field10 in HM, HF.
  rewrite (to_u32_small MSK), (to_u32_small FIX) by lia.
  unfold repeat_axis_spec, axis_region, clamp_to.
  rewrite (to_u32_small (dim - 1)) by lia.
  destruct (Z.land (to_u32 (MSK + 1)) MSK =? 0) eqn:Htest; simpl andb.
  - destruct (Z.land FIX MSK =? 0) eqn:Hfix; cbn [fst snd].
    + rewrite (to_u32_small (FIX + MSK)) by lia.
      rewrite !to_u16_small by lia.
      split; [intros _; lia | intros Hn; exfalso; apply Hn].
      split; [apply Hmask; reflexivity | apply Z.eqb_eq; exact Hfix].
    + rewrite !to_u16_small by lia.
      split; [| intros _; lia].
      intros [_ Hz]. apply Z.eqb_neq in Hfix. contradiction.
  - cbn [fst snd]. rewrite !to_u16_small by lia.
    split; [| intros _; lia].
    intros [Hp _]. apply Hmask in Hp. congruence.
Qed.

Lemma axis_region_clamp MIN MAX dim :
  is_field10 MIN -> is_field10 MAX -> 1 <= dim < 2 ^ 32 ->
  clamp_axis_spec MIN MAX dim
    (to_u16 (fst (axis_region CLAMP_REGION_CLAMP (to_u32 MIN) (to_u32 MAX) dim)))
    (to_u16 (snd (axis_region CLAMP_REGION_CLAMP (to_u32 MIN) (to_u32 MAX) dim))).
Proof.
  intros HM HF Hdim. unfold is_field10 in HM, HF.
  rewrite (to_u32_small MIN), (to_u32_small MAX) by lia.
  unfold clamp_axis_spec, axis_region.
  rewrite (to_u32_small (dim - 1)) by lia.
  cbn [fst snd]. rewrite !to_u16_small by lia. lia.
Qed.

Lemma GetTextureRegionForCLAMP_u c twidth theight :
  let r := GetTextureRegionForCLAMP c twidth theight in
  let a := axis_region (WMS c) (to_u32 (MINU c)) (to_u32 (MAXU c)) twidth in
  u_min r = to_u16 (fst a) /\ u_max r = to_u16 (snd a).
Proof.
  unfold GetTextureRegionForCLAMP.
  destruct (axis_region (WMS c) _ _ twidth), (axis_region (WMT c) _ _ theight).
  split; reflexivity.
Qed.

Lemma GetTextureRegionForCLAMP_v c twidth theight :
  let r := GetTextureRegionForCLAMP c twidth theight in
  let a := axis_region (WMT c) (to_u32 (MINV c)) (to_u32 (MAXV c)) theight in
  v_min r = to_u16 (fst a) /\ v_max r = to_u16 (snd a).
Proof.
  unfold GetTextureRegionForCLAMP.
  destruct (axis_region (WMS c) _ _ twidth), (axis_region (WMT c) _ _ theight).
  split; reflexivity.
Qed.

(** C1.  In region-repeat mode with the parameters MSK and FIX, the
    resolver returns on an axis the bounds FIX and FIX + MSK clamped to
    the interval from 0 to dim - 1 when MSK + 1 is a power of two and
    FIX has no bit in common with MSK, and the bounds 0 and dim - 1
    otherwise; this holds for the horizontal axis with twidth and for
    the vertical axis with theight, each on its own.  The parameters
    are 10-bit fields, and the dimension of the axis is at least 1 and
    at most 65536, so that dim - 1 is a bound that the region can
    hold. *)
Theorem region_repeat_resolver (c : GIFRegCLAMP) (twidth theight : Z) :
  clamp_wf c ->
  let r := GetTextureRegionForCLAMP c twidth theight in
  (WMS c = CLAMP_REGION_REPEAT -> 1 <= twidth <= 2 ^ 16 ->
   repeat_axis_spec (MINU c) (MAXU c) twidth (u_min r) (u_max r))
  /\
  (WMT c = CLAMP_REGION_REPEAT -> 1 <= theight <= 2 ^ 16 ->
   repeat_axis_spec (MINV c) (MAXV c) theight (v_min r) (v_max r)).
Proof.
  intros (Hminu & Hmaxu & Hminv & Hmaxv) r. split; intros Hmode Hdim.
  - destruct (GetTextureRegionForCLAMP_u c twidth theight) as [Hlo Hhi].
    subst r. rewrite Hlo, Hhi, Hmode. apply axis_region_repeat; assumption.
  - destruct (GetTextureRegionForCLAMP_v c twidth theight) as [Hlo Hhi].
    subst r. rewrite Hlo, Hhi, Hmode. apply axis_region_repeat; assumption.
Qed.

Lemma region_repeat_resolver_witness :
  clamp_wf clamp_repeat_8_15 /\
  let r := GetTextureRegionForCLAMP clamp_repeat_8_15 64 32 in
  (u_min r = 8 /\ u_max r = 15) /\ (v_min r = 0 /\ v_max r = 31).
Proof.
  assert (Hwf : clamp_wf clamp_repeat_8_15)
    by (unfold clamp_wf, is_field10; simpl; lia).
  split; [exact Hwf |].
  destruct (region_repeat_resolver clamp_repeat_8_15 64 32 Hwf) as [Hu Hv].
  split.
  - destruct (Hu eq_refl ltac:(lia)) as [Hyes _]. apply Hyes.
    split; [exists 3; split; [lia | reflexivity] | reflexivity].
  - destruct (Hv eq_refl ltac:(lia)) as [_ Hno]. apply Hno.
    intros [_ Hland]. vm_compute in Hland. discriminate.
Defined.

(** C2.  In region-clamp mode with the parameters MIN and MAX, the
    resolver returns on an axis the upper bound min(MAX, dim - 1) and
    the lower bound min(MIN, dim - 1) clamped to be at most the upper
    bound; the lower bound is at most the upper one, which is at most
    dim - 1.  The parameters are 10-bit fields and the dimension is at
    least 1. *)
Theorem region_clamp_resolver (c : GIFRegCLAMP) (twidth theight : Z) :
  clamp_wf c ->
  let r := GetTextureRegionForCLAMP c twidth theight in
  (WMS c = CLAMP_REGION_CLAMP -> 1 <= twidth < 2 ^ 32 ->
   clamp_axis_spec (MINU c) (MAXU c) twidth (u_min r) (u_max r))
  /\
  (WMT c = CLAMP_REGION_CLAMP -> 1 <= theight < 2 ^ 32 ->
   clamp_axis_spec (MINV c) (MAXV c) theight (v_min r) (v_max r)).
Proof.
  intros (Hminu & Hmaxu & Hminv & Hmaxv) r. split; intros Hmode Hdim.
  - destruct (GetTextureRegionForCLAMP_u c twidth theight) as [Hlo Hhi].
    subst r. rewrite Hlo, Hhi, Hmode. apply axis_region_clamp; assumption.
  - destruct (GetTextureRegionForCLAMP_v c twidth theight) as [Hlo Hhi].
    subst r. rewrite Hlo, Hhi, Hmode. apply axis_region_clamp; assumption.
Qed.

Lemma region_clamp_resolver_witness :
  clamp_wf clamp_region_20_300 /\
  let r := GetTextureRegionForCLAMP clamp_region_20_300 256 64 in
  clamp_axis_spec 20 300 256 (u_min r) (u_max r) /\
  clamp_axis_spec 500 40 64 (v_min r) (v_max r).
Proof.
  assert (Hwf : clamp_wf clamp_region_20_300)
    by (unfold clamp_wf, is_field10; simpl; lia).
  split; [exact Hwf |].
  destruct (region_clamp_resolver clamp_region_20_300 256 64 Hwf) as [Hu Hv].
  split; [apply Hu | apply Hv]; first [reflexivity | lia].
Defined.

(** What the resolver returns at the two registers above. *)
Example resolver_repeat_8_15 :
  GetTextureRegionForCLAMP clamp_repeat_8_15 64 32
  = {| u_min := 8; u_max := 15; v_min := 0; v_max := 31 |}.
Proof. reflexivity. Qed.

Example resolver_clamp_20_300 :
  GetTextureRegionForCLAMP clamp_region_20_300 256 64
  = {| u_min := 20; u_max := 255; v_min := 40; v_max := 40 |}.
Proof. reflexivity. Qed.

(** Outside these dimensions the wrap-around of [dim - 1] in [u32] and
    of the bounds in [u16] shows: a texture of no texel, and one of
    70000 texels, in the mode without a region. *)
Example resolver_dim_0_and_70000 :
  GetTextureRegionForCLAMP
    {| WMS := CLAMP_CLAMP; WMT := CLAMP_REPEAT;
       MINU := 0; MAXU := 0; MINV := 0; MAXV := 0 |} 0 70000
  = {| u_min := 0; u_max := 65535; v_min := 0; v_max := 4463 |}.
Proof. reflexivity. Qed.

(** ** Equality of texture regions *)

(** C9.  The comparison of texture regions compares the [v_max] of
    this region with the [u_max] of the other one: it is true exactly
    when [u_min], [u_max] and [v_min] agree field by field and
    [this.v_max] is [other.u_max]; and there is a region whose [v_max]
    is not its [u_max], which the comparison does not find equal to
    itself. *)
Theorem TextureRegion_eq_spec :
  (forall this other : TextureRegion,
     TextureRegion_eq this other = true <->
     u_min this = u_min other /\ u_max this = u_max other /\
     v_min this = v_min other /\ v_max this = u_max other)
  /\
  (exists r : TextureRegion,
     v_max r <> u_max r /\ TextureRegion_eq r r = false).
Proof.
  split.
  - intros this other. unfold TextureRegion_eq.
    rewrite !andb_true_iff, !Z.eqb_eq. tauto.
  - exists region_0_7_0_3. split; [discriminate | reflexivity].
Qed.

(** The comparison is reflexive exactly on the regions whose [v_max]
    is their [u_max]. *)
Lemma TextureRegion_eq_refl_iff (r : TextureRegion) :
  TextureRegion_eq r r = true <-> v_max r = u_max r.
Proof.
  unfold TextureRegion_eq. rewrite !andb_true_iff, !Z.eqb_eq. tauto.
Qed.

(** ** The batch accumulator *)

Section BatchFacts.
Context {F : Type} `{FloatOps F}.

Implicit Types (s : GS3DScreenshot F) (tri : Tri F) (cs : list (Call F)).

Lemma to_u32_length_bound (n : nat) :
  0 <= to_u32 (Z.of_nat n) <= Z.of_nat n.
Proof.
  unfold to_u32. split; [apply Z.mod_pos_bound; lia |].
  apply Z.mod_le; lia.
Qed.

Lemma map_insert_lookup k v (m : gmap string Z) :
  let '(it_second, inserted, m') := map_insert k v m in
  m' !! k = Some it_second /\
  (inserted = true <-> m !! k = None) /\
  (inserted = false -> m' = m).
Proof.
  unfold map_insert. destruct (m !! k) as [v' |] eqn:Hk.
  - split; [exact Hk |]. split; [split; discriminate | reflexivity].
  - split; [apply lookup_insert_eq |]. split; [tauto | discriminate].
Qed.

Lemma SetTextureName_seen new_name idx s :
  m_texture_map s !! new_name = Some idx ->
  SetTextureName new_name s =
  {| m_dump_dir := m_dump_dir s;
     m_tri_was_culled := m_tri_was_culled s;
     m_tris := m_tris s;
     m_textures := m_textures s;
     m_cur_texture_index := idx;
     m_texture_map := m_texture_map s;
     m_dump_directory := m_dump_directory s;
     m_u_offset := m_u_offset s;
     m_v_offset := m_v_offset s;
     m_u_scale := m_u_scale s;
     m_v_scale := m_v_scale s |}.
Proof. intros Hk. unfold SetTextureName, map_insert. rewrite Hk. reflexivity. Qed.

Lemma SetTextureName_unseen new_name s :
  m_texture_map s !! new_name = None ->
  SetTextureName new_name s =
  {| m_dump_dir := m_dump_dir s;
     m_tri_was_culled := m_tri_was_culled s;
     m_tris := m_tris s;
     m_textures := m_textures s ++ [new_name];
     m_cur_texture_index := to_u32 (Z.of_nat (length (m_textures s)));
     m_texture_map :=
       <[new_name := to_u32 (Z.of_nat (length (m_textures s)))]> (m_texture_map s);
     m_dump_directory := m_dump_directory s;
     m_u_offset := m_u_offset s;
     m_v_offset := m_v_offset s;
     m_u_scale := m_u_scale s;
     m_v_scale := m_v_scale s |}.
Proof. intros Hk. unfold SetTextureName, map_insert. rewrite Hk. reflexivity. Qed.

(** After [SetTextureName], the name is in the map, under the current
    texture index. *)
Lemma SetTextureName_lookup new_name s :
  m_texture_map (SetTextureName new_name s) !! new_name
  = Some (m_cur_texture_index (SetTextureName new_name s)).
Proof.
  destruct (m_texture_map s !! new_name) as [idx |] eqn:Hk.
  - rewrite (SetTextureName_seen _ idx) by exact Hk. exact Hk.
  - rewrite SetTextureName_unseen by exact Hk. apply lookup_insert_eq.
Qed.

Lemma SetTextureName_idem new_name s :
  SetTextureName new_name (SetTextureName new_name s)
  = SetTextureName new_name s.
Proof.
  rewrite (SetTextureName_seen new_name _ (SetTextureName new_name s)
             (SetTextureName_lookup new_name s)).
  destruct (SetTextureName new_name s); reflexivity.
Qed.

Lemma names_registered_call c s :
  names_registered s -> names_registered (call c s).
Proof.
  intros Hreg. destruct c as [new_name | region tw th | tri]; [| exact Hreg ..].
  simpl. intros name.
  destruct (m_texture_map s !! new_name) as [idx |] eqn:Hk.
  - rewrite (SetTextureName_seen _ idx) by exact Hk. apply Hreg.
  - rewrite SetTextureName_unseen by exact Hk. simpl.
    rewrite elem_of_app, list_elem_of_singleton, lookup_insert.
    rewrite (Hreg name). case_decide as Heq.
    + subst name. split; [eauto | right; reflexivity].
    + split; [intros [Hs | Hn]; [exact Hs | congruence] | left; assumption].
Qed.

Lemma m_textures_call c s :
  names_registered s ->
  m_textures (call c s) = first_seen (m_textures s) (names_of [c]).
Proof.
  intros Hreg. destruct c as [new_name | region tw th | tri]; [| reflexivity ..].
  simpl. destruct (m_texture_map s !! new_name) as [idx |] eqn:Hk.
  - rewrite (SetTextureName_seen _ idx) by exact Hk. simpl.
    rewrite bool_decide_eq_true_2; [reflexivity |]. apply Hreg. eauto.
  - rewrite SetTextureName_unseen by exact Hk. simpl.
    rewrite bool_decide_eq_false_2; [reflexivity |].
    rewrite (Hreg new_name), Hk. intros [? ?]; discriminate.
Qed.

Lemma first_seen_app seen names1 names2 :
  first_seen seen (names1 ++ names2)
  = first_seen (first_seen seen names1) names2.
Proof.
  revert seen. induction names1 as [| n names1 IH]; intros seen; simpl.
  - reflexivity.
  - apply IH.
Qed.

Lemma m_textures_run cs s :
  names_registered s ->
  m_textures (run_calls cs s) = first_seen (m_textures s) (names_of cs).
Proof.
  revert s. induction cs as [| c cs IH]; intros s Hreg.
  - reflexivity.
  - change (run_calls (c :: cs) s) with (run_calls cs (call c s)).
    rewrite IH by (apply names_registered_call; exact Hreg).
    rewrite m_textures_call by exact Hreg.
    replace (names_of (c :: cs)) with (names_of [c] ++ names_of cs)
      by (unfold names_of; simpl; rewrite app_nil_r; reflexivity).
    symmetry. apply first_seen_app.
Qed.

Lemma names_registered_new cur0 : names_registered (GS3DScreenshot_new cur0).
Proof.
  intros name. simpl. rewrite lookup_empty. split.
  - intros Hin. inversion Hin.
  - intros [? ?]; discriminate.
Qed.

(** C7.  Calling [SetTextureName] twice with the same name leaves the
    batch, and so the texture table, as it is after the first call:
    the table does not grow and the current texture index is the same
    index after both calls, the one under which the name is
    registered.  A name that is not registered is appended to the end
    of the table, a registered one leaves the table as it is; so the
    table of a batch built from a fresh one holds the names in the
    order in which they were first seen. *)
Theorem SetTextureName_twice s (new_name : string) :
  let s1 := SetTextureName new_name s in
  let s2 := SetTextureName new_name s1 in
  s2 = s1
  /\ m_textures s2 = m_textures s1
  /\ m_cur_texture_index s2 = m_cur_texture_index s1
  /\ m_texture_map s1 !! new_name = Some (m_cur_texture_index s1)
  /\ (m_texture_map s !! new_name = None ->
      m_textures s1 = m_textures s ++ [new_name])
  /\ (is_Some (m_texture_map s !! new_name) ->
      m_textures s1 = m_textures s)
  /\ (forall cs cur0,
        m_textures (run_calls cs (GS3DScreenshot_new cur0))
        = first_seen [] (names_of cs)).
Proof.
  intros s1 s2. subst s1 s2.
  rewrite SetTextureName_idem.
  split; [reflexivity |]. split; [reflexivity |]. split; [reflexivity |].
  split; [apply SetTextureName_lookup |]. split; [| split].
  - intros Hk. rewrite SetTextureName_unseen by exact Hk. reflexivity.
  - intros [idx Hk]. rewrite (SetTextureName_seen _ idx) by exact Hk. reflexivity.
  - intros cs cur0. apply (m_textures_run cs), names_registered_new.
Qed.

(** *** Validity of the texture indices *)

Lemma tri_index_valid_mono s s' tri :
  (length (m_textures s) <= length (m_textures s'))%nat ->
  tri_index_valid s tri -> tri_index_valid s' tri.
Proof. unfold tri_index_valid. intros Hlen Hv Hen. specialize (Hv Hen). lia. Qed.

Lemma indices_valid_SetTextureName named new_name s :
  indices_valid named s -> indices_valid true (SetTextureName new_name s).
Proof.
  intros (Hmap & Htris & Hcur).
  destruct (m_texture_map s !! new_name) as [idx |] eqn:Hk.
  - rewrite (SetTextureName_seen _ idx) by exact Hk.
    split; [| split]; simpl.
    + exact Hmap.
    + eapply Forall_impl; [exact Htris |].
      intros tri. apply tri_index_valid_mono. reflexivity.
    + intros _. exact (Hmap _ _ Hk).
  - rewrite SetTextureName_unseen by exact Hk.
    pose proof (to_u32_length_bound (length (m_textures s))) as Hb.
    split; [| split]; simpl.
    + intros name idx. rewrite length_app, lookup_insert. simpl.
      case_decide as Heq.
      * intros [= <-]. lia.
      * intros Hl. specialize (Hmap _ _ Hl). lia.
    + eapply Forall_impl; [exact Htris |].
      intros tri. apply tri_index_valid_mono. simpl. rewrite length_app. lia.
    + intros _. rewrite length_app. simpl. lia.
Qed.

Lemma indices_valid_run cs : forall named s,
  indices_valid named s ->
  named_before_textured named cs = true ->
  Forall (tri_index_valid (run_calls cs s)) (m_tris (run_calls cs s)).
Proof.
  induction cs as [| c cs IH]; intros named s Hinv Hok.
  - exact (proj1 (proj2 Hinv)).
  - change (run_calls (c :: cs) s) with (run_calls cs (call c s)).
    destruct c as [new_name | region tw th | tri]; simpl in Hok.
    + apply (IH true); [| exact Hok].
      apply (indices_valid_SetTextureName named). exact Hinv.
    + apply (IH named); [| exact Hok]. exact Hinv.
    + apply andb_true_iff in Hok. destruct Hok as [Hthis Hok].
      apply (IH named); [| exact Hok].
      destruct Hinv as (Hmap & Htris & Hcur).
      split; [exact Hmap |]. split; [| exact Hcur].
      simpl. apply Forall_app. split; [exact Htris |].
      apply Forall_singleton. unfold tri_index_valid, stamp_tri.
      destruct (texture_enabled tri) eqn:Hen; simpl.
      * intros _. apply Hcur. destruct named; [reflexivity | discriminate].
      * rewrite Hen. discriminate.
Qed.

Lemma indices_valid_new cur0 : indices_valid false (GS3DScreenshot_new cur0).
Proof.
  split; [| split]; simpl.
  - intros name idx. rewrite lookup_empty. discriminate.
  - constructor.
  - discriminate.
Qed.

Lemma reachable_run cs : forall s, reachable s -> reachable (run_calls cs s).
Proof.
  induction cs as [| c cs IH]; intros s Hs; [exact Hs |].
  apply (IH (call c s)). constructor. exact Hs.
Qed.

(** C4, as amended.  In every state reached from a freshly
    constructed batch by a sequence of calls of [SetTextureName],
    [SetTextureRegion] and [AddTri] in which no triangle with
    textures enabled is added before a texture has been named, every
    stored triangle with [texture_enabled] has a [texture_index]
    below the size of the texture table. *)
Theorem texture_index_valid_once_named cs (cur0 : Z) :
  named_before_textured false cs = true ->
  let s := run_calls cs (GS3DScreenshot_new cur0) in
  Forall (tri_index_valid s) (m_tris s).
Proof.
  intros Hok. apply (indices_valid_run cs false); [| exact Hok].
  apply indices_valid_new.
Qed.
End BatchFacts.

(** ** The serializer *)

Section SerializerFacts.
Context {F : Type} `{FloatOps F} `{FloatFormat F}.
Variable Path_Combine : string -> string -> string.

Implicit Types (s : GS3DScreenshot F) (tri : Tri F) (d : Disk).

(** *** The loop, by index *)

Lemma obj_tris_lines_imap (tris : list (Tri F)) : forall last,
  obj_tris_lines last tris
  = concat (imap (fun i tri =>
                    obj_tri_lines (match i with O => last | S j => tris !! j end) tri)
                 tris).
Proof.
  induction tris as [| tri tris IH]; intros last; simpl.
  - reflexivity.
  - rewrite IH. reflexivity.
Qed.

Lemma DumpOBJ_lines_blocks filename s :
  DumpOBJ_lines filename s
  = [ObjHeader; ObjMtllib filename] ++ concat (obj_blocks (m_tris s)).
Proof.
  unfold DumpOBJ_lines, obj_blocks. rewrite obj_tris_lines_imap. reflexivity.
Qed.

Lemma obj_blocks_lookup (tris : list (Tri F)) (i : nat) tri :
  tris !! i = Some tri ->
  obj_blocks tris !! i = Some (obj_tri_lines (last_tri tris i) tri).
Proof.
  intros Hi. unfold obj_blocks. rewrite list_lookup_imap, Hi. reflexivity.
Qed.

(** *** Group markers *)

Lemma groups_of_tri_lines (last : option (Tri F)) tri :
  groups_of (obj_tri_lines last tri)
  = if group_changes last tri then [ObjG (culled tri)] else [].
Proof.
  unfold obj_tri_lines. destruct (verts tri) as [[v1 v2] v3].
  destruct (group_changes last tri), (material_changes last tri); reflexivity.
Qed.

Lemma group_changes_spec (tris : list (Tri F)) (i : nat) tri :
  (i < length tris)%nat ->
  group_changes (last_tri tris i) tri = true
  <-> first_or_culled_changes tris i tri.
Proof.
  intros Hi. unfold first_or_culled_changes. destruct i as [| j]; simpl.
  - split; [intros _; left; reflexivity | reflexivity].
  - destruct (lookup_lt_is_Some_2 tris j) as [prev Hprev]; [lia |].
    rewrite Hprev. simpl. rewrite negb_true_iff, eqb_false_iff. split.
    + intros Hne. right. exists j, prev. auto.
    + intros [Hz | (j' & prev' & [= <-] & Hl & Hne)]; [discriminate |].
      congruence.
Qed.


(** *** Face records *)

Lemma obj_index_back {A : Type} (l : list A) (k : nat) :
  (0 < k <= length l)%nat ->
  obj_index l (- Z.of_nat k) = l !! (length l - k)%nat.
Proof.
  intros Hk. unfold obj_index.
  destruct (Z.ltb_spec 0 (- Z.of_nat k)); [lia |].
  destruct (Z.ltb_spec (- Z.of_nat k) 0); [| lia].
  destruct (Z.leb_spec 0 (Z.of_nat (length l) + - Z.of_nat k)); [| lia].
  simpl. f_equal. lia.
Qed.

Lemma obj_index_last3 {A : Type} (l : list A) (a b c : A) :
  obj_index (l ++ [a; b; c]) (-3) = Some a
  /\ obj_index (l ++ [a; b; c]) (-2) = Some b
  /\ obj_index (l ++ [a; b; c]) (-1) = Some c.
Proof.
  assert (Hlen : length (l ++ [a; b; c]) = (length l + 3)%nat)
    by (rewrite length_app; reflexivity).
  repeat split.
  - change (-3) with (- Z.of_nat 3). rewrite obj_index_back by lia.
    rewrite lookup_app_r by lia.
    replace (length (l ++ [a; b; c]) - 3 - length l)%nat with 0%nat by lia.
    reflexivity.
  - change (-2) with (- Z.of_nat 2). rewrite obj_index_back by lia.
    rewrite lookup_app_r by lia.
    replace (length (l ++ [a; b; c]) - 2 - length l)%nat with 1%nat by lia.
    reflexivity.
  - change (-1) with (- Z.of_nat 1). rewrite obj_index_back by lia.
    rewrite lookup_app_r by lia.
    replace (length (l ++ [a; b; c]) - 1 - length l)%nat with 2%nat by lia.
    reflexivity.
Qed.

(** Reading the directives of a triangle adds its three vertices, its
    three texture coordinates and one face. *)
Lemma obj_read_tri_lines (last : option (Tri F)) tri (sc : ObjScene) :
  fold_left obj_read_line (obj_tri_lines last tri) sc
  = {| scene_v := scene_v sc ++ map obj_v (verts_list (verts tri));
       scene_vt := scene_vt sc ++ map obj_vt (verts_list (verts tri));
       scene_f := scene_f sc ++ [face_132 tri] |}.
Proof.
  unfold obj_tri_lines, face_132. destruct (verts tri) as [[v1 v2] v3].
  destruct (obj_index_last3 (scene_v sc) (obj_v v1) (obj_v v2) (obj_v v3))
    as (Hv1 & Hv2 & Hv3).
  destruct (obj_index_last3 (scene_vt sc) (obj_vt v1) (obj_vt v2) (obj_vt v3))
    as (Ht1 & Ht2 & Ht3).
  destruct (group_changes last tri), (material_changes last tri);
    cbn [verts_list map app fold_left obj_read_line obj_v obj_vt
         scene_v scene_vt scene_f];
    rewrite <- !app_assoc; cbn [app];
    unfold obj_corner, corner_of; cbn [scene_v scene_vt fst snd];
    fold (obj_v v1) (obj_v v2) (obj_v v3) (obj_vt v1) (obj_vt v2) (obj_vt v3);
    rewrite Hv1, Hv2, Hv3, Ht1, Ht2, Ht3; reflexivity.
Qed.

Lemma obj_read_tris_lines (tris : list (Tri F)) : forall last sc,
  scene_f (fold_left obj_read_line (obj_tris_lines last tris) sc)
  = scene_f sc ++ map face_132 tris.
Proof.
  induction tris as [| tri tris IH]; intros last sc; simpl.
  - rewrite app_nil_r. reflexivity.
  - rewrite fold_left_app, obj_read_tri_lines, IH. simpl.
    rewrite <- app_assoc. reflexivity.
Qed.

Lemma faces_of_tri_lines (last : option (Tri F)) tri :
  List.filter is_face (obj_tri_lines last tri)
  = [ObjF (-3, -3) (-1, -1) (-2, -2)].
Proof.
  unfold obj_tri_lines. destruct (verts tri) as [[v1 v2] v3].
  destruct (group_changes last tri), (material_changes last tri); reflexivity.
Qed.

(** *** Dumping twice *)

Lemma write_file_twice (path text : string) d :
  write_file path text (write_file path text d) = write_file path text d.
Proof. unfold write_file. simpl. rewrite insert_insert_eq. reflexivity. Qed.

Lemma write_file_again (p1 t1 p2 t2 : string) d :
  write_file p2 t2 (write_file p1 t1 (write_file p2 t2 (write_file p1 t1 d)))
  = write_file p2 t2 (write_file p1 t1 d).
Proof.
  unfold write_file. simpl. f_equal. apply map_eq. intros k.
  rewrite !lookup_insert. repeat case_decide; reflexivity.
Qed.

(** A dump that ends is either a failure to open the geometry file, a
    failure to open the material file after the geometry file was
    written, or the writing of both files. *)
Lemma DumpToFile_cases filename s d ok d1 :
  DumpToFile Path_Combine filename s d = Some (ok, d1) ->
  (can_open d (OBJ_path Path_Combine filename s) = false
   /\ ok = false /\ d1 = d)
  \/ (exists text,
        can_open d (OBJ_path Path_Combine filename s) = true
        /\ DumpOBJ_text filename s = Some text
        /\ can_open d (MTL_path Path_Combine filename s) = false
        /\ ok = false
        /\ d1 = write_file (OBJ_path Path_Combine filename s) text d)
  \/ (exists text,
        can_open d (OBJ_path Path_Combine filename s) = true
        /\ DumpOBJ_text filename s = Some text
        /\ can_open d (MTL_path Path_Combine filename s) = true
        /\ ok = true
        /\ d1 = write_file (MTL_path Path_Combine filename s) (DumpMTL_text s)
                  (write_file (OBJ_path Path_Combine filename s) text d)).
Proof.
  unfold DumpToFile, DumpOBJ, DumpMTL.
  destruct (can_open d (OBJ_path Path_Combine filename s)) eqn:Hobj; simpl.
  - destruct (DumpOBJ_text filename s) as [text |] eqn:Htext; simpl; [| discriminate].
    destruct (can_open d (MTL_path Path_Combine filename s)) eqn:Hmtl;
      intros [= <- <-].
    + right. right. exists text. auto.
    + right. left. exists text. auto.
  - intros [= <- <-]. left. auto.
Qed.

Lemma DumpToFile_twice filename s d ok d1 :
  DumpToFile Path_Combine filename s d = Some (ok, d1) ->
  DumpToFile Path_Combine filename s d1 = Some (ok, d1).
Proof.
  intros Hdump.
  destruct (DumpToFile_cases _ _ _ _ _ Hdump)
    as [(Hobj & -> & ->) | [(text & Hobj & Htext & Hmtl & -> & ->)
                          | (text & Hobj & Htext & Hmtl & -> & ->)]].
  - exact Hdump.
  - unfold DumpToFile, DumpOBJ, DumpMTL. simpl.
    rewrite Hobj, Htext. simpl. rewrite Hmtl.
    rewrite write_file_twice. reflexivity.
  - unfold DumpToFile, DumpOBJ, DumpMTL. simpl.
    rewrite Hobj, Htext. simpl. rewrite Hmtl.
    rewrite write_file_again. reflexivity.
Qed.

(** C8.  A dump that ends returns the batch as it was given; a second
    dump of it under the same name ends with the same result and
    leaves every file as the first dump left it, so the geometry and
    the material files hold the same bytes after both.  After a dump
    that succeeded, the material file holds the text of the materials
    of the batch, and the geometry file, when it is another file,
    the text of its geometry; both texts are functions of the batch
    and the name alone. *)
Theorem dump_twice_identical (filename : string) (w w1 : World) (ok : bool) :
  dump Path_Combine filename w = Some (ok, w1) ->
  batch w1 = batch w
  /\ dump Path_Combine filename w1 = Some (ok, w1)
  /\ (ok = true ->
      contents (disk w1) !! MTL_path Path_Combine filename (batch w)
      = Some (DumpMTL_text (batch w))
      /\ exists text,
           DumpOBJ_text filename (batch w) = Some text
           /\ (OBJ_path Path_Combine filename (batch w)
               <> MTL_path Path_Combine filename (batch w) ->
               contents (disk w1) !! OBJ_path Path_Combine filename (batch w)
               = Some text)).
Proof.
  unfold dump. intros Hdump.
  destruct (DumpToFile Path_Combine filename (batch w) (disk w))
    as [[ok' d1] |] eqn:Hfirst; simpl in Hdump; [| discriminate].
  injection Hdump as <- <-. simpl.
  split; [reflexivity |]. split.
  - rewrite (DumpToFile_twice _ _ _ _ _ Hfirst). reflexivity.
  - intros ->.
    destruct (DumpToFile_cases _ _ _ _ _ Hfirst)
      as [(_ & Hok & _) | [(text & _ & _ & _ & Hok & _)
                         | (text & _ & Htext & _ & _ & ->)]];
      [discriminate Hok | discriminate Hok |].
    split; [apply lookup_insert_eq |].
    exists text. split; [exact Htext |]. intros Hne. simpl.
    rewrite lookup_insert_ne by congruence. apply lookup_insert_eq.
Qed.
End SerializerFacts.

(** ** The UV transform *)

Section RemapState.
Context {F : Type} `{FloatOps F}.

(** The state of the UV transform is set by [SetTextureRegion]
    alone. *)
Lemma remap_state_run (cs : list (Call F)) : forall s : GS3DScreenshot F,
  no_region_call cs = true ->
  m_u_offset (run_calls cs s) = m_u_offset s
  /\ m_v_offset (run_calls cs s) = m_v_offset s
  /\ m_u_scale (run_calls cs s) = m_u_scale s
  /\ m_v_scale (run_calls cs s) = m_v_scale s.
Proof.
  induction cs as [| c cs IH]; intros s Hno; [auto |].
  change (run_calls (c :: cs) s) with (run_calls cs (call c s)).
  simpl in Hno. apply andb_true_iff in Hno. destruct Hno as [Hc Hno].
  destruct (IH (call c s) Hno) as (-> & -> & -> & ->).
  destruct c as [new_name | region tw th | tri]; [| discriminate |].
  - simpl. unfold SetTextureName.
    destruct (map_insert _ _ _) as [[? ?] ?]. auto.
  - auto.
Qed.
End RemapState.

(** *** In binary32 *)

Lemma pos_mul_2p23 (m : positive) :
  (m * 8388608 = m~0~0~0~0~0~0~0~0~0~0~0~0~0~0~0~0~0~0~0~0~0~0~0)%positive.
Proof. rewrite Pos.mul_comm. reflexivity. Qed.

Lemma digits2_shift23 (m : positive) :
  Zpos (digits2_pos (Pos.mul m 8388608)) = Zpos (digits2_pos m) + 23.
Proof.
  rewrite pos_mul_2p23. cbn [digits2_pos].
  rewrite !Pos2Z.inj_succ. lia.
Qed.

(** The product of a valid binary32 value with [1.0f] is the value. *)
Lemma binary32_mul_one (x : binary32) :
  binary32_valid x -> f_mul x (f_of_Z 1) = x.
Proof.
  unfold binary32_valid.
  change (f_mul x (f_of_Z 1)) with (SFmul 24 128 x (S754_finite false 8388608 (-23))).
  destruct x as [sx | sx | | sx m e]; simpl; intros Hv.
  - destruct sx; reflexivity.
  - destruct sx; reflexivity.
  - reflexivity.
  - unfold bounded, canonical_mantissa in Hv.
    apply andb_true_iff in Hv. destruct Hv as [Hc Hb].
    apply Z.eqb_eq in Hc.
    unfold binary_round_aux, shr_fexp.
    cbn [Zdigits2]. rewrite digits2_shift23.
    replace (Z.pos (digits2_pos m) + 23 + (e + -23))
      with (Z.pos (digits2_pos m) + e) by lia.
    rewrite Hc.
    replace (e - (e + -23)) with 23 by lia.
    rewrite pos_mul_2p23.
    cbn [shr shr_record_of_loc SpecFloat.iter_pos shr_1 orb].
    cbn [shr_m loc_of_shr_record round_nearest_even Zdigits2].
    replace (e + -23 + 23) with e by lia.
    rewrite Hc, Z.sub_diag. cbn [shr shr_m].
    rewrite Hb, xorb_false_r. reflexivity.
Qed.

(** The sum of a binary32 value and [0.0f] is the value, but for the
    negative zero, whose sum with [0.0f] is the positive zero. *)
Lemma binary32_add_zero (x : binary32) :
  f_add x (f_of_Z 0)
  = match x with S754_zero _ => S754_zero false | _ => x end.
Proof. destruct x as [[|] | [|] | | sx m e]; reflexivity. Qed.

Lemma binary32_identity_remap (x : binary32) :
  binary32_valid x ->
  binary32_same (f_mul (f_add x (f_of_Z 0)) (f_of_Z 1)) x.
Proof.
  intros Hv. rewrite binary32_add_zero.
  destruct x as [[|] | sx | | sx m e].
  - right. split; reflexivity.
  - left. reflexivity.
  - left. apply binary32_mul_one. exact Hv.
  - left. reflexivity.
  - left. apply binary32_mul_one. exact Hv.
Qed.

(** C10.  On a batch built from a freshly constructed one without a
    call of [SetTextureRegion], the state of the UV transform is the
    identity, the offsets being 0 and the scales 1, and [AddTri] of a
    triangle with textures enabled stores every vertex with the u and
    v coordinates it was given: the stored coordinate is the same
    binary32 value, the negative zero alone being stored as the
    positive zero, which is the same number. *)
Theorem fresh_remap_identity (cs : list (Call binary32)) (cur0 : Z)
    (tri : Tri binary32) :
  no_region_call cs = true ->
  texture_enabled tri = true ->
  Forall (fun vt => binary32_valid (Vert.u vt) /\ binary32_valid (Vert.v vt))
         (verts_list (verts tri)) ->
  let s := run_calls cs (GS3DScreenshot_new cur0) in
  (m_u_offset s = f_of_Z 0 /\ m_v_offset s = f_of_Z 0
   /\ m_u_scale s = f_of_Z 1 /\ m_v_scale s = f_of_Z 1)
  /\ m_tris (AddTri tri s) = m_tris s ++ [stamp_tri s tri]
  /\ Forall2 uv_unchanged
       (verts_list (verts tri)) (verts_list (verts (stamp_tri s tri))).
Proof.
  intros Hno Hen Hvalid s.
  destruct (remap_state_run cs (GS3DScreenshot_new cur0) Hno)
    as (Huo & Hvo & Hus & Hvs).
  change (m_u_offset s = f_of_Z 0) in Huo.
  change (m_v_offset s = f_of_Z 0) in Hvo.
  change (m_u_scale s = f_of_Z 1) in Hus.
  change (m_v_scale s = f_of_Z 1) in Hvs.
  split; [auto |]. split; [reflexivity |].
  assert (Hone : forall vt,
            binary32_valid (Vert.u vt) /\ binary32_valid (Vert.v vt) ->
            uv_unchanged vt (remap_vert s vt)).
  { intros vt [Hu Hv]. unfold uv_unchanged, remap_vert. cbn [Vert.u Vert.v].
    rewrite Huo, Hvo, Hus, Hvs.
    split; apply binary32_identity_remap; assumption. }
  unfold stamp_tri. rewrite Hen. cbn [verts].
  destruct (verts tri) as [[v1 v2] v3]. cbn [verts_map verts_list] in *.
  inversion Hvalid as [| ? ? H1 Hvalid2]; subst.
  inversion Hvalid2 as [| ? ? H2 Hvalid3]; subst.
  inversion Hvalid3 as [| ? ? H3 _]; subst.
  constructor; [apply Hone; exact H1 |].
  constructor; [apply Hone; exact H2 |].
  constructor; [apply Hone; exact H3 |].
  constructor.
Qed.

(** Rounding does not depend on the sign. *)
Lemma binary_round_aux_opp (sx : bool) (mx ex : Z) (lx : location) :
  binary_round_aux 24 128 (negb sx) mx ex lx
  = SFopp (binary_round_aux 24 128 sx mx ex lx).
Proof.
  unfold binary_round_aux.
  destruct (shr_fexp 24 128 mx ex lx) as [mrs' e'].
  destruct (shr_fexp 24 128 _ e' loc_Exact) as [mrs'' e''].
  destruct (shr_m mrs'') as [| m | m]; [reflexivity | | reflexivity].
  destruct (e'' <=? 128 - 24); reflexivity.
Qed.

(** The quotient of the opposite is the opposite of the quotient. *)
Lemma binary32_div_opp (x y : binary32) :
  f_div (f_opp x) y = f_opp (f_div x y).
Proof.
  change (SFdiv 24 128 (SFopp x) y = SFopp (SFdiv 24 128 x y)).
  destruct x as [sx | sx | | sx mx ex], y as [sy | sy | | sy my ey];
    try reflexivity;
    try (destruct sx, sy; reflexivity).
  unfold SFopp at 1. unfold SFdiv.
  destruct (SFdiv_core_binary 24 128 (Z.pos mx) ex (Z.pos my) ey) as [[mz ez] lz].
  rewrite <- binary_round_aux_opp. destruct sx, sy; reflexivity.
Qed.

(** The sum of a finite value and its opposite is the positive zero. *)
Lemma binary32_add_opp (x : binary32) :
  binary32_is_finite x = true -> f_add x (f_opp x) = S754_zero false.
Proof.
  change (f_add x (f_opp x)) with (SFadd 24 128 x (SFopp x)).
  destruct x as [[|] | sx | | sx m e]; try discriminate; try reflexivity.
  intros _. unfold SFopp, SFadd, shl_align.
  rewrite Z.min_id, Z.sub_diag. cbn [fst].
  destruct sx; cbn [negb cond_Zopp];
    rewrite ?Z.add_opp_diag_l, ?Z.add_opp_diag_r; reflexivity.
Qed.

Lemma binary32_zero_mul (x y : binary32) :
  binary32_is_zero x = true -> binary32_is_finite y = true ->
  binary32_is_zero (f_mul x y) = true.
Proof.
  destruct x as [sx | sx | | sx mx ex]; try discriminate.
  destruct y as [sy | sy | | sy my ey]; try discriminate; reflexivity.
Qed.

(** In binary32, whatever the region and the size of the texture: a
    vertex whose coordinate is the quotient of the lower bound by the
    dimension is stored with a zero, when the quotient and the scale
    are finite. *)
Lemma binary32_lower_corner (s : GS3DScreenshot binary32)
    (region : TextureRegion) (twidth theight : Z) (vt : Vert binary32) :
  let s1 := SetTextureRegion region twidth theight s in
  (Vert.u vt = f_div (f_of_Z (u_min region)) (f_of_Z twidth) ->
   binary32_is_finite (Vert.u vt) = true ->
   binary32_is_finite (m_u_scale s1) = true ->
   binary32_is_zero (Vert.u (remap_vert s1 vt)) = true)
  /\
  (Vert.v vt = f_div (f_of_Z (v_min region)) (f_of_Z theight) ->
   binary32_is_finite (Vert.v vt) = true ->
   binary32_is_finite (m_v_scale s1) = true ->
   binary32_is_zero (Vert.v (remap_vert s1 vt)) = true).
Proof.
  intros s1. unfold remap_vert. cbn [Vert.u Vert.v].
  split; intros Hx Hfin Hscale.
  - apply binary32_zero_mul; [| exact Hscale].
    change (m_u_offset s1)
      with (f_div (F := binary32) (f_opp (f_of_Z (u_min region))) (f_of_Z twidth)).
    rewrite binary32_div_opp, <- Hx, binary32_add_opp by exact Hfin.
    reflexivity.
  - apply binary32_zero_mul; [| exact Hscale].
    change (m_v_offset s1)
      with (f_div (F := binary32) (f_opp (f_of_Z (v_min region))) (f_of_Z theight)).
    rewrite binary32_div_opp, <- Hx, binary32_add_opp by exact Hfin.
    reflexivity.
Qed.

Lemma regions_upto_spec (n : nat) (lo hi dim : Z) :
  1 <= dim <= Z.of_nat n -> 0 <= lo <= hi -> hi < dim ->
  In (lo, hi, dim) (regions_upto n).
Proof.
  intros Hdim Hlo Hhi. unfold regions_upto.
  apply in_flat_map. exists (Z.to_nat dim). split; [apply in_seq; lia |].
  apply in_flat_map. exists (Z.to_nat lo). split; [apply in_seq; lia |].
  apply in_map_iff. exists (Z.to_nat hi). split; [| apply in_seq; lia].
  rewrite !Z2Nat.id by lia. reflexivity.
Qed.

(** In binary32, for every texture of at most 32 by 32 texels and
    every region inside it: the lower corner is stored as (0, 0), and
    the upper corner at most 2^-18 away from (1, 1). *)
Lemma binary32_corners_upto_32 (lo hi dim : Z) :
  1 <= dim <= 32 -> 0 <= lo <= hi -> hi < dim ->
  corners_in_binary32 lo hi dim = true.
Proof.
  intros Hdim Hlo Hhi.
  assert (Hall : forallb (fun '(lo, hi, dim) => corners_in_binary32 lo hi dim)
                         (regions_upto 32) = true)
    by (vm_compute; reflexivity).
  rewrite forallb_forall in Hall.
  apply (Hall (lo, hi, dim)). apply regions_upto_spec; assumption.
Qed.

(** *** Without rounding *)

Lemma inject_Z_nonzero (n : Z) : n <> 0 -> ~ (inject_Z n == 0)%Q.
Proof.
  intros Hn Heq. unfold Qeq in Heq. simpl in Heq. lia.
Qed.

Lemma exact_remap_lower (a t w x : Q) :
  (~ t == 0 -> ~ w == 0 -> x == a / t -> (x + - a / t) * (t / w) == 0)%Q.
Proof. intros Ht Hw ->. field. split; assumption. Qed.

Lemma exact_remap_upper (lo hi t x : Q) :
  (~ t == 0 -> ~ hi - lo + 1 == 0 -> x == (hi + 1) / t ->
   (x + - lo / t) * (t / (hi - lo + 1)) == 1)%Q.
Proof. intros Ht Hw ->. field. split; assumption. Qed.

Lemma inject_Z_width (lo hi : Z) :
  (inject_Z (hi - lo + 1) == inject_Z hi - inject_Z lo + 1)%Q.
Proof.
  unfold Z.sub. rewrite !inject_Z_plus, inject_Z_opp. reflexivity.
Qed.

Lemma exact_remap_vert (s : GS3DScreenshot Q) (region : TextureRegion)
    (twidth theight : Z) (vt : Vert Q) :
  twidth <> 0 -> theight <> 0 ->
  u_max region - u_min region + 1 <> 0 ->
  v_max region - v_min region + 1 <> 0 ->
  let s1 := SetTextureRegion region twidth theight s in
  uv_transform region twidth theight vt (remap_vert s1 vt)
  /\ corners_to_unit region twidth theight vt (remap_vert s1 vt).
Proof.
  intros Htw Hth Hw Hh s1.
  apply inject_Z_nonzero in Htw, Hth, Hw, Hh.
  split; [split; reflexivity |].
  unfold corners_to_unit, remap_vert. cbn -[Z.sub Z.add].
  repeat split; intros Hx.
  - apply exact_remap_lower; assumption.
  - apply exact_remap_lower; assumption.
  - rewrite inject_Z_width in Hw |- *.
    rewrite inject_Z_plus in Hx. apply exact_remap_upper; assumption.
  - rewrite inject_Z_width in Hh |- *.
    rewrite inject_Z_plus in Hx. apply exact_remap_upper; assumption.
Qed.


(** ** The statements on concrete batches *)

Example f_of_Z_one : f_of_Z (F := binary32) 1 = S754_finite false 8388608 (-23).
Proof. reflexivity. Qed.


(** The normalized coordinates 8/64 and 16/64 go to 0 and 1, in
    binary32 too. *)
Example normalized_corners_unit :
  map (fun vt => (Vert.u vt, Vert.v vt))
      (verts_list (verts (stamp_tri batch_8_15 normalized_tri)))
  = [ (f_of_Z 0, f_of_Z 0); (f_of_Z 1, f_of_Z 1); (f_of_Z 0, f_of_Z 1) ].
Proof. vm_compute. reflexivity. Qed.

(** Without rounding too, the texel coordinates 8 and 16 go to 63 and
    127. *)
Example texel_corners_exact :
  let s1 : GS3DScreenshot Q :=
    SetTextureRegion region_8_15 64 64 (GS3DScreenshot_new 0) in
  Forall2 (fun vt uv => Vert.u vt == fst uv /\ Vert.v vt == snd uv)%Q
    (verts_list (verts (stamp_tri s1
       (tri_uv false true (8 # 1, 8 # 1) (16 # 1, 16 # 1) (8 # 1, 16 # 1))%Q)))
    [(63 # 1, 63 # 1); (127 # 1, 127 # 1); (63 # 1, 127 # 1)]%Q.
Proof. repeat constructor. Qed.


(** A triangle with textures enabled added to a fresh batch has an
    index that is not below the size of the table, which is 0. *)
Lemma texture_index_invalid_unnamed :
  let s := run_calls [CallAddTri texel_tri] (GS3DScreenshot_new 0) in
  reachable s
  /\ length (m_textures s) = 0%nat
  /\ ~ Forall (tri_index_valid s) (m_tris s).
Proof.
  split; [| split].
  - apply reachable_run. constructor. unfold is_u32. lia.
  - reflexivity.
  - intros Hall. inversion Hall as [| tri l Hv _]; subst.
    unfold tri_index_valid in Hv. specialize (Hv eq_refl).
    simpl in Hv. lia.
Qed.

Lemma texture_index_valid_once_named_witness :
  named_before_textured false named_calls = true
  /\ let s := run_calls named_calls (GS3DScreenshot_new 0) in
     Forall (tri_index_valid s) (m_tris s).
Proof.
  split; [reflexivity |].
  apply (texture_index_valid_once_named named_calls 0). reflexivity.
Defined.

Example named_calls_table :
  let s := run_calls named_calls (GS3DScreenshot_new 0) in
  m_textures s = ["tex0"; "tex1"]
  /\ m_cur_texture_index s = 0
  /\ map (fun tri => (texture_enabled tri, texture_index tri)) (m_tris s)
     = [(false, 0); (true, 0); (true, 0)].
Proof. repeat split; vm_compute; reflexivity. Qed.

Lemma SetTextureName_twice_witness :
  let s := run_calls named_calls (GS3DScreenshot_new 0) in
  m_textures (SetTextureName "tex2" (SetTextureName "tex2" s))
  = m_textures s ++ ["tex2"]
  /\ m_textures (SetTextureName "tex1" (SetTextureName "tex1" s))
     = m_textures s.
Proof.
  intros s.
  destruct (SetTextureName_twice s "tex2") as (Hidem & _ & _ & _ & Hnew & _).
  destruct (SetTextureName_twice s "tex1") as (Hidem' & _ & _ & _ & _ & Hold & _).
  cbv zeta in *. rewrite Hidem, Hidem'. split.
  - apply Hnew. vm_compute. reflexivity.
  - apply Hold. vm_compute. eauto.
Defined.

Lemma fresh_remap_identity_witness :
  Forall2 uv_unchanged
    (verts_list (verts (unit_tri false)))
    (verts_list (verts (stamp_tri culled_batch (unit_tri false)))).
Proof.
  apply (fresh_remap_identity culled_calls 0 (unit_tri false)).
  - reflexivity.
  - reflexivity.
  - repeat constructor.
Defined.

(** The negative zero is stored as the positive zero. *)
Example negative_zero_stored_positive :
  let tri := tri_uv false true (S754_zero true, S754_zero true)
                    (f_of_Z 1, f_of_Z 0) (f_of_Z 0, f_of_Z 1) in
  map (fun vt => (Vert.u vt, Vert.v vt))
      (verts_list (verts (stamp_tri (GS3DScreenshot_new 0) tri)))
  = [ (S754_zero false, S754_zero false); (f_of_Z 1, f_of_Z 0);
      (f_of_Z 0, f_of_Z 1) ].
Proof. vm_compute. reflexivity. Qed.




(** The directives of the batch of three triangles, but for the vertex
    and texture-coordinate ones. *)
Example culled_batch_lines :
  List.filter (fun l => match l with ObjV _ _ _ _ _ _ | ObjVt _ _ => false | _ => true end)
              (DumpOBJ_lines "shot" culled_batch)
  = [ ObjHeader; ObjMtllib "shot";
      ObjG true; ObjUsemtl (Some 0); ObjF (-3, -3) (-1, -1) (-2, -2);
      ObjF (-3, -3) (-1, -1) (-2, -2);
      ObjG false; ObjF (-3, -3) (-1, -1) (-2, -2) ].
Proof. vm_compute. reflexivity. Qed.

Lemma dump_twice_identical_witness :
  exists w1 : World,
    dump join_path "shot" {| batch := culled_batch; disk := open_disk |}
    = Some (true, w1)
    /\ batch w1 = culled_batch
    /\ dump join_path "shot" w1 = Some (true, w1).
Proof.
  eexists. split; [reflexivity |].
  destruct (dump_twice_identical join_path "shot"
              {| batch := culled_batch; disk := open_disk |} _ true eq_refl)
    as (Hbatch & Hagain & _).
  split; [exact Hbatch | exact Hagain].
Defined.

(** ** The resolver in every mode *)

(** The bounds of an axis are in order and inside the texture, whatever
    the mode and the parameters. *)
Lemma axis_region_bounds WM MIN MAX dim :
  1 <= dim <= 2 ^ 16 ->
  0 <= to_u16 (fst (axis_region WM (to_u32 MIN) (to_u32 MAX) dim))
    <= to_u16 (snd (axis_region WM (to_u32 MIN) (to_u32 MAX) dim))
  /\ to_u16 (snd (axis_region WM (to_u32 MIN) (to_u32 MAX) dim)) <= dim - 1.
Proof.
  intros Hdim.
  assert (Hmin : 0 <= to_u32 MIN) by (apply Z.mod_pos_bound; lia).
  assert (Hmax : 0 <= to_u32 MAX) by (apply Z.mod_pos_bound; lia).
  assert (Hsum : 0 <= to_u32 (to_u32 MAX + to_u32 MIN))
    by (apply Z.mod_pos_bound; lia).
  unfold axis_region. rewrite (to_u32_small (dim - 1)) by lia.
  destruct WM; cbn [fst snd];
    try destruct (_ && _); cbn [fst snd];
    rewrite !to_u16_small by lia; lia.
Qed.

Lemma axis_region_plain WM MIN MAX dim :
  plain_mode WM -> 1 <= dim <= 2 ^ 16 ->
  to_u16 (fst (axis_region WM MIN MAX dim)) = 0
  /\ to_u16 (snd (axis_region WM MIN MAX dim)) = dim - 1.
Proof.
  intros Hmode Hdim. unfold axis_region.
  rewrite (to_u32_small (dim - 1)) by lia.
  destruct Hmode as [-> | ->]; cbn [fst snd];
    rewrite !to_u16_small by lia; lia.
Qed.

(** X1.  In the modes without a region, plain clamp and plain repeat,
    the resolver returns on an axis the whole axis, from 0 to the
    dimension less one, whatever the parameter fields hold; each axis
    on its own. *)
Theorem resolver_plain_full_axis (c : GIFRegCLAMP) (twidth theight : Z) :
  let r := GetTextureRegionForCLAMP c twidth theight in
  (plain_mode (WMS c) -> 1 <= twidth <= 2 ^ 16 ->
   u_min r = 0 /\ u_max r = twidth - 1)
  /\
  (plain_mode (WMT c) -> 1 <= theight <= 2 ^ 16 ->
   v_min r = 0 /\ v_max r = theight - 1).
Proof.
  intros r. split; intros Hmode Hdim.
  - destruct (GetTextureRegionForCLAMP_u c twidth theight) as [Hlo Hhi].
    subst r. rewrite Hlo, Hhi. apply axis_region_plain; assumption.
  - destruct (GetTextureRegionForCLAMP_v c twidth theight) as [Hlo Hhi].
    subst r. rewrite Hlo, Hhi. apply axis_region_plain; assumption.
Qed.

Lemma resolver_bounds (c : GIFRegCLAMP) (twidth theight : Z) :
  1 <= twidth <= 2 ^ 16 -> 1 <= theight <= 2 ^ 16 ->
  let r := GetTextureRegionForCLAMP c twidth theight in
  (0 <= u_min r <= u_max r /\ u_max r <= twidth - 1)
  /\ (0 <= v_min r <= v_max r /\ v_max r <= theight - 1).
Proof.
  intros Hw Hh r.
  destruct (GetTextureRegionForCLAMP_u c twidth theight) as [Hulo Huhi].
  destruct (GetTextureRegionForCLAMP_v c twidth theight) as [Hvlo Hvhi].
  subst r. rewrite Hulo, Huhi, Hvlo, Hvhi.
  split; apply axis_region_bounds; assumption.
Qed.

(** X2.  For a texture of 1 to 65536 texels on each axis, whatever the
    register holds, the region that the resolver returns is in order
    and inside the texture on both axes, and so its [Width()] and
    [Height()] are at least 1 and at most the dimensions. *)
Theorem resolver_region_inside (c : GIFRegCLAMP) (twidth theight : Z) :
  1 <= twidth <= 2 ^ 16 -> 1 <= theight <= 2 ^ 16 ->
  let r := GetTextureRegionForCLAMP c twidth theight in
  0 <= u_min r <= u_max r /\ u_max r <= twidth - 1
  /\ 0 <= v_min r <= v_max r /\ v_max r <= theight - 1
  /\ 1 <= Width r <= twidth /\ 1 <= Height r <= theight.
Proof.
  intros Hw Hh r.
  destruct (resolver_bounds c twidth theight Hw Hh) as [[Hu Hu'] [Hv Hv']].
  fold r in Hu, Hu', Hv, Hv'.
  unfold Width, Height. rewrite !to_u32_small by lia. lia.
Qed.

Lemma resolver_region_inside_witness :
  let r := GetTextureRegionForCLAMP clamp_region_20_300 256 64 in
  0 <= u_min r <= u_max r /\ u_max r <= 256 - 1
  /\ 0 <= v_min r <= v_max r /\ v_max r <= 64 - 1
  /\ 1 <= Width r <= 256 /\ 1 <= Height r <= 64.
Proof.
  apply (resolver_region_inside clamp_region_20_300 256 64); lia.
Defined.

(** A parameter without a bit of the mask [MSK] is a multiple of
    [MSK + 1]. *)
Lemma land_mask_zero_multiple MSK FIX :
  0 <= MSK -> is_pow2 (MSK + 1) -> Z.land FIX MSK = 0 ->
  FIX mod (MSK + 1) = 0.
Proof.
  intros HM (k & Hk & Hpow) Hland.
  assert (Hones : MSK = Z.ones k) by (rewrite Z.ones_equiv; lia).
  rewrite Hones, Z.land_ones in Hland by exact Hk.
  rewrite Hpow. exact Hland.
Qed.

(** X3.  In region-repeat mode with a mask MSK of low bits and an
    offset FIX without a bit of the mask, when the rectangle from FIX
    to FIX + MSK lies inside the texture, the region returned is this
    rectangle: its size on the axis is MSK + 1, a power of two, and
    its lower bound is a multiple of its size. *)
Theorem region_repeat_size_aligned (c : GIFRegCLAMP) (twidth theight : Z) :
  clamp_wf c ->
  let r := GetTextureRegionForCLAMP c twidth theight in
  (WMS c = CLAMP_REGION_REPEAT -> 1 <= twidth <= 2 ^ 16 ->
   is_pow2 (MINU c + 1) -> Z.land (MAXU c) (MINU c) = 0 ->
   MAXU c + MINU c <= twidth - 1 ->
   u_min r = MAXU c /\ Width r = MINU c + 1
   /\ is_pow2 (Width r) /\ u_min r mod Width r = 0)
  /\
  (WMT c = CLAMP_REGION_REPEAT -> 1 <= theight <= 2 ^ 16 ->
   is_pow2 (MINV c + 1) -> Z.land (MAXV c) (MINV c) = 0 ->
   MAXV c + MINV c <= theight - 1 ->
   v_min r = MAXV c /\ Height r = MINV c + 1
   /\ is_pow2 (Height r) /\ v_min r mod Height r = 0).
Proof.
  intros (Hminu & Hmaxu & Hminv & Hmaxv) r.
  split; intros Hmode Hdim Hpow Hland Hfit.
  - destruct (GetTextureRegionForCLAMP_u c twidth theight) as [Hlo Hhi].
    destruct (axis_region_repeat (MINU c) (MAXU c) twidth Hminu Hmaxu Hdim)
      as [Hyes _].
    destruct (Hyes (conj Hpow Hland)) as [Hl Hh].
    rewrite <- Hmode, <- Hlo in Hl. rewrite <- Hmode, <- Hhi in Hh.
    fold r in Hl, Hh. unfold is_field10, clamp_to in *.
    assert (Hmin : u_min r = MAXU c) by lia.
    assert (Hw : Width r = MINU c + 1)
      by (unfold Width; rewrite to_u32_small by lia; lia).
    rewrite Hw, Hmin. repeat split; [exact Hpow |].
    apply land_mask_zero_multiple; [lia | assumption ..].
  - destruct (GetTextureRegionForCLAMP_v c twidth theight) as [Hlo Hhi].
    destruct (axis_region_repeat (MINV c) (MAXV c) theight Hminv Hmaxv Hdim)
      as [Hyes _].
    destruct (Hyes (conj Hpow Hland)) as [Hl Hh].
    rewrite <- Hmode, <- Hlo in Hl. rewrite <- Hmode, <- Hhi in Hh.
    fold r in Hl, Hh. unfold is_field10, clamp_to in *.
    assert (Hmin : v_min r = MAXV c) by lia.
    assert (Hw : Height r = MINV c + 1)
      by (unfold Height; rewrite to_u32_small by lia; lia).
    rewrite Hw, Hmin. repeat split; [exact Hpow |].
    apply land_mask_zero_multiple; [lia | assumption ..].
Qed.

(** ** The comparison of regions, both ways *)

Lemma TextureRegion_eq_true (this other : TextureRegion) :
  TextureRegion_eq this other = true <->
  u_min this = u_min other /\ u_max this = u_max other /\
  v_min this = v_min other /\ v_max this = u_max other.
Proof.
  unfold TextureRegion_eq. rewrite !andb_true_iff, !Z.eqb_eq. tauto.
Qed.

(** X4.  Two regions that the comparison finds equal in both orders
    have the same four bounds; against a region whose [v_max] is its
    [u_max] the comparison is the equality of the four bounds; and the
    comparison is not symmetric. *)
Theorem TextureRegion_eq_both_ways :
  (forall a b : TextureRegion,
     TextureRegion_eq a b = true -> TextureRegion_eq b a = true -> a = b)
  /\ (forall a b : TextureRegion,
        v_max b = u_max b -> (TextureRegion_eq a b = true <-> a = b))
  /\ (exists a b : TextureRegion,
        TextureRegion_eq a b = true /\ TextureRegion_eq b a = false /\ a <> b).
Proof.
  split; [| split].
  - intros [a1 a2 a3 a4] [b1 b2 b3 b4].
    rewrite !TextureRegion_eq_true. simpl. intros H1 H2.
    f_equal; lia.
  - intros [a1 a2 a3 a4] [b1 b2 b3 b4]. simpl. intros Hb.
    rewrite TextureRegion_eq_true. simpl. split.
    + intros H1. f_equal; lia.
    + intros [= -> -> -> ->]. lia.
  - exists {| u_min := 0; u_max := 7; v_min := 0; v_max := 7 |}, region_0_7_0_3.
    split; [reflexivity |]. split; [reflexivity | discriminate].
Qed.

(** ** The batch over sequences of calls *)

Section BatchSequences.
Context {F : Type} `{FloatOps F} `{FloatFormat F}.

Implicit Types (s : GS3DScreenshot F) (tri : Tri F) (cs : list (Call F)).

Lemma run_calls_app cs1 cs2 s :
  run_calls (cs1 ++ cs2) s = run_calls cs2 (run_calls cs1 s).
Proof. unfold run_calls. apply fold_left_app. Qed.

Lemma same_vertex_data_remap s (vt : Vert F) :
  same_vertex_data vt (remap_vert s vt).
Proof. unfold same_vertex_data, remap_vert. simpl. tauto. Qed.

Lemma same_vertex_data_refl (vt : Vert F) : same_vertex_data vt vt.
Proof. unfold same_vertex_data. tauto. Qed.

Lemma stored_as_stamp s tri : stored_as tri (stamp_tri s tri).
Proof.
  unfold stored_as, stamp_tri.
  destruct (texture_enabled tri) eqn:Hen; cbn [culled texture_enabled verts].
  - split; [reflexivity |]. split; [reflexivity |]. split; [| discriminate].
    destruct (verts tri) as [[v1 v2] v3]. cbn [verts_map verts_list].
    repeat constructor; apply same_vertex_data_remap.
  - split; [reflexivity |]. split; [exact Hen |]. split; [| reflexivity].
    destruct (verts tri) as [[v1 v2] v3]. cbn [verts_list].
    repeat constructor; apply same_vertex_data_refl.
Qed.

Lemma SetTextureName_m_tris new_name s :
  m_tris (SetTextureName new_name s) = m_tris s.
Proof.
  unfold SetTextureName. destruct (map_insert _ _ _) as [[? ?] ?]. reflexivity.
Qed.

Lemma m_tris_call c s :
  m_tris (call c s) = m_tris s ++ map (stamp_tri s) (tris_of [c]).
Proof.
  destruct c as [new_name | region tw th | tri]; simpl.
  - rewrite SetTextureName_m_tris, app_nil_r. reflexivity.
  - rewrite app_nil_r. reflexivity.
  - reflexivity.
Qed.

Lemma tris_of_cons c cs : tris_of (c :: cs) = tris_of [c] ++ tris_of cs.
Proof. unfold tris_of. simpl. rewrite app_nil_r. reflexivity. Qed.

Lemma names_of_cons c cs : names_of (c :: cs) = names_of [c] ++ names_of cs.
Proof. unfold names_of. simpl. rewrite app_nil_r. reflexivity. Qed.

Lemma m_tris_run cs : forall s,
  exists added,
    m_tris (run_calls cs s) = m_tris s ++ added
    /\ Forall2 stored_as (tris_of cs) added.
Proof.
  induction cs as [| c cs IH]; intros s.
  - exists []. split; [symmetry; apply app_nil_r | constructor].
  - change (run_calls (c :: cs) s) with (run_calls cs (call c s)).
    destruct (IH (call c s)) as (added & Heq & Hall).
    exists (map (stamp_tri s) (tris_of [c]) ++ added). split.
    + rewrite Heq, m_tris_call, <- app_assoc. reflexivity.
    + rewrite tris_of_cons. apply Forall2_app; [| exact Hall].
      destruct c as [new_name | region tw th | tri]; simpl;
        [constructor | constructor |].
      constructor; [apply stored_as_stamp | constructor].
Qed.

Lemma m_textures_call_app c s :
  exists names,
    m_textures (call c s) = m_textures s ++ names
    /\ (length names <= length (names_of [c]))%nat.
Proof.
  destruct c as [new_name | region tw th | tri]; simpl.
  - destruct (m_texture_map s !! new_name) as [idx |] eqn:Hk.
    + rewrite (SetTextureName_seen _ idx) by exact Hk. simpl.
      exists []. split; [symmetry; apply app_nil_r | simpl; lia].
    + rewrite SetTextureName_unseen by exact Hk. simpl.
      exists [new_name]. split; [reflexivity | simpl; lia].
  - exists []. split; [symmetry; apply app_nil_r | simpl; lia].
  - exists []. split; [symmetry; apply app_nil_r | simpl; lia].
Qed.

Lemma m_textures_run_app cs : forall s,
  exists names,
    m_textures (run_calls cs s) = m_textures s ++ names
    /\ (length names <= length (names_of cs))%nat.
Proof.
  induction cs as [| c cs IH]; intros s.
  - exists []. split; [symmetry; apply app_nil_r | simpl; lia].
  - change (run_calls (c :: cs) s) with (run_calls cs (call c s)).
    destruct (IH (call c s)) as (names2 & Heq2 & Hlen2).
    destruct (m_textures_call_app c s) as (names1 & Heq1 & Hlen1).
    exists (names1 ++ names2). split.
    + rewrite Heq2, Heq1, <- app_assoc. reflexivity.
    + rewrite names_of_cons, !length_app. lia.
Qed.

(** X5.  Whatever the calls, the list of triangles and the texture
    table only grow at their end: the triangles stored before stay as
    they are and in place, one triangle is appended for each [AddTri],
    in the order of the calls, with the flags, positions and colours it
    was given (a triangle without texture as it was given), and the
    names of the table stay in place. *)
Theorem batch_append_only cs s :
  exists added names,
    m_tris (run_calls cs s) = m_tris s ++ added
    /\ Forall2 stored_as (tris_of cs) added
    /\ m_textures (run_calls cs s) = m_textures s ++ names.
Proof.
  destruct (m_tris_run cs s) as (added & Htris & Hstored).
  destruct (m_textures_run_app cs s) as (names & Hnames & _).
  exists added, names. auto.
Qed.

(** X6.  [IsEmpty] is true after a sequence of calls exactly when it
    was true before and no call of the sequence is an [AddTri]:
    naming a texture or setting a region leaves a batch empty, and a
    batch with a triangle never becomes empty again. *)
Theorem IsEmpty_run cs s :
  IsEmpty (run_calls cs s) = true <-> IsEmpty s = true /\ tris_of cs = [].
Proof.
  destruct (m_tris_run cs s) as (added & Htris & Hstored).
  unfold IsEmpty. rewrite Htris.
  apply Forall2_length in Hstored.
  destruct (m_tris s) as [| t0 l0]; simpl.
  - destruct added as [| a l], (tris_of cs) as [| b k]; simpl in Hstored;
      try discriminate Hstored.
    + split; auto.
    + split; [discriminate | intros [_ Hnil]; discriminate Hnil].
  - split; [discriminate | intros [Hf _]; discriminate Hf].
Qed.

(** *** The table and its map *)

Lemma table_consistent_new cur0 : table_consistent (GS3DScreenshot_new cur0).
Proof.
  split; [constructor |]. intros name i. simpl.
  rewrite lookup_empty, lookup_nil. split; [discriminate | intros [_ ?]; discriminate].
Qed.

Lemma table_consistent_SetTextureName new_name s :
  table_consistent s ->
  Z.of_nat (length (m_textures s)) < 2 ^ 32 ->
  table_consistent (SetTextureName new_name s).
Proof.
  intros [Hnodup Hinv] Hlen.
  destruct (m_texture_map s !! new_name) as [idx |] eqn:Hk.
  { rewrite (SetTextureName_seen _ idx) by exact Hk. split; assumption. }
  rewrite SetTextureName_unseen by exact Hk.
  rewrite to_u32_small by lia.
  assert (Hfresh : new_name ∉ m_textures s).
  { intros Hin. apply list_elem_of_lookup in Hin. destruct Hin as [i Hi].
    assert (m_texture_map s !! new_name = Some (Z.of_nat i)) as Hm
      by (apply Hinv; rewrite Nat2Z.id; split; [lia | exact Hi]).
    congruence. }
  split; simpl.
  - apply NoDup_app. split; [exact Hnodup |]. split.
    + intros x Hx Hx'. apply list_elem_of_singleton in Hx'. subst x. contradiction.
    + apply NoDup_singleton.
  - intros name i. rewrite lookup_insert. case_decide as Heq.
    + subst name. split.
      * intros [= <-]. split; [lia |].
        rewrite Nat2Z.id, lookup_app_r by lia.
        rewrite Nat.sub_diag. reflexivity.
      * intros [Hi Hl]. f_equal.
        destruct (Z_lt_le_dec i (Z.of_nat (length (m_textures s)))) as [Hlt | Hge].
        -- rewrite lookup_app_l in Hl by lia.
           exfalso. apply Hfresh. apply list_elem_of_lookup. eauto.
        -- apply lookup_lt_Some in Hl. rewrite length_app in Hl. simpl in Hl. lia.
    + rewrite (Hinv name i). split; intros [Hi Hl]; (split; [exact Hi |]).
      * apply lookup_app_l_Some. exact Hl.
      * apply lookup_app_Some in Hl. destruct Hl as [Hl | [_ Hl]]; [exact Hl |].
        apply list_lookup_singleton_Some in Hl. destruct Hl as [_ Hl]. congruence.
Qed.

Lemma table_consistent_run cs : forall s,
  table_consistent s ->
  Z.of_nat (length (m_textures s) + length (names_of cs)) <= 2 ^ 32 ->
  table_consistent (run_calls cs s).
Proof.
  induction cs as [| c cs IH]; intros s Hcons Hlen; [exact Hcons |].
  change (run_calls (c :: cs) s) with (run_calls cs (call c s)).
  rewrite names_of_cons, length_app in Hlen.
  destruct (m_textures_call_app c s) as (names & Heq & Hnames).
  apply IH.
  - destruct c as [new_name | region tw th | tri]; [| exact Hcons ..].
    simpl. apply table_consistent_SetTextureName; [exact Hcons |].
    simpl in Hlen. lia.
  - rewrite Heq, length_app. lia.
Qed.

(** X7.  In a batch built from a fresh one with at most 2^32 calls of
    [SetTextureName], the table holds no name twice and the map is its
    inverse: a name is mapped to an index exactly when the table holds
    the name at this index. *)
Theorem texture_map_inverse_of_table cs (cur0 : Z) :
  Z.of_nat (length (names_of cs)) <= 2 ^ 32 ->
  let s := run_calls cs (GS3DScreenshot_new cur0) in
  NoDup (m_textures s)
  /\ forall name i,
       m_texture_map s !! name = Some i
       <-> 0 <= i /\ m_textures s !! Z.to_nat i = Some name.
Proof.
  intros Hlen.
  apply (table_consistent_run cs (GS3DScreenshot_new cur0));
    [apply table_consistent_new | simpl; lia].
Qed.

(** *** The texture of a triangle *)

Lemma no_names_run cs : forall s,
  names_of cs = [] ->
  m_textures (run_calls cs s) = m_textures s
  /\ m_cur_texture_index (run_calls cs s) = m_cur_texture_index s.
Proof.
  induction cs as [| c cs IH]; intros s Hno; [auto |].
  change (run_calls (c :: cs) s) with (run_calls cs (call c s)).
  rewrite names_of_cons in Hno. apply app_eq_nil in Hno. destruct Hno as [Hc Hcs].
  destruct (IH (call c s) Hcs) as [-> ->].
  destruct c as [new_name | region tw th | tri]; [discriminate | auto ..].
Qed.

Lemma current_texture_named new_name s :
  table_consistent s ->
  Z.of_nat (length (m_textures s)) < 2 ^ 32 ->
  let s1 := SetTextureName new_name s in
  0 <= m_cur_texture_index s1
  /\ m_textures s1 !! Z.to_nat (m_cur_texture_index s1) = Some new_name.
Proof.
  intros Hcons Hlen s1.
  destruct (table_consistent_SetTextureName new_name s Hcons Hlen) as [_ Hinv].
  apply Hinv. apply SetTextureName_lookup.
Qed.

(** X8.  A triangle with textures enabled refers to the texture named
    last before it was added, in every later state of the batch: when
    [SetTextureName(name)] is followed, without another naming in
    between, by the [AddTri] of the triangle, the triangle is stored at
    its place in the list with a texture index at which the table holds
    [name], whatever calls follow. *)
Theorem textured_triangle_names_last_texture
    cs1 mid cs2 (cur0 : Z) (new_name : string) tri :
  names_of mid = [] ->
  texture_enabled tri = true ->
  Z.of_nat (length (names_of cs1)) < 2 ^ 32 ->
  let s := run_calls (cs1 ++ CallSetTextureName new_name :: mid
                          ++ CallAddTri tri :: cs2)
                     (GS3DScreenshot_new cur0) in
  exists t,
    m_tris s !! (length (tris_of cs1) + length (tris_of mid))%nat = Some t
    /\ stored_as tri t
    /\ 0 <= texture_index t
    /\ m_textures s !! Z.to_nat (texture_index t) = Some new_name
    /\ fmt_obj_line (m_textures s) (ObjUsemtl (Some (texture_index t)))
       = Some ("usemtl " +:+ new_name +:+ nl).
Proof.
  intros Hmid Hen Hlen s.
  set (s0 := GS3DScreenshot_new cur0) in *.
  set (s1 := run_calls cs1 s0).
  set (s2 := SetTextureName new_name s1).
  set (s3 := run_calls mid s2).
  set (s4 := AddTri tri s3).
  assert (Hs : s = run_calls cs2 s4).
  { subst s s4 s3 s2 s1. rewrite run_calls_app. simpl.
    change (fold_left (fun s c => call c s) (mid ++ CallAddTri tri :: cs2))
      with (run_calls (mid ++ CallAddTri tri :: cs2)).
    rewrite run_calls_app. reflexivity. }
  destruct (m_textures_run_app cs1 s0) as (names1 & Hnames1 & Hlen1).
  assert (Hcons1 : table_consistent s1).
  { apply table_consistent_run; [apply table_consistent_new | simpl; lia]. }
  assert (Hlen1' : Z.of_nat (length (m_textures s1)) < 2 ^ 32).
  { fold s1 in Hnames1. rewrite Hnames1. simpl. lia. }
  destruct (current_texture_named new_name s1 Hcons1 Hlen1') as [Hcur0 Hcur].
  fold s2 in Hcur0, Hcur.
  destruct (no_names_run mid s2 Hmid) as [Htab3 Hcur3]. fold s3 in Htab3, Hcur3.
  destruct (m_tris_run cs1 s0) as (added1 & Htris1 & Hst1). fold s1 in Htris1.
  destruct (m_tris_run mid s2) as (added3 & Htris3 & Hst3). fold s3 in Htris3.
  destruct (m_tris_run cs2 s4) as (added2 & Htris2 & _).
  destruct (m_textures_run_app cs2 s4) as (names2 & Hnames2 & _).
  apply Forall2_length in Hst1, Hst3.
  exists (stamp_tri s3 tri). rewrite Hs.
  assert (Hidx : texture_index (stamp_tri s3 tri) = m_cur_texture_index s2).
  { unfold stamp_tri. rewrite Hen. simpl. exact Hcur3. }
  assert (Hname : m_textures (run_calls cs2 s4)
                  !! Z.to_nat (texture_index (stamp_tri s3 tri)) = Some new_name).
  { rewrite Hnames2. apply lookup_app_l_Some. subst s4. simpl.
    rewrite Htab3, Hidx. exact Hcur. }
  split; [| split; [apply stored_as_stamp | split; [| split; [exact Hname |]]]].
  - rewrite Htris2. apply lookup_app_l_Some. subst s4. simpl.
    rewrite Htris3. unfold s2. rewrite SetTextureName_m_tris, Htris1. simpl.
    rewrite lookup_app_r by (rewrite length_app; lia).
    rewrite length_app.
    replace (length (tris_of cs1) + length (tris_of mid)
             - (length added1 + length added3))%nat with 0%nat by lia.
    reflexivity.
  - rewrite Hidx. exact Hcur0.
  - cbn [fmt_obj_line].
    destruct (Z.leb_spec 0 (texture_index (stamp_tri s3 tri))) as [_ | Hneg];
      [| rewrite Hidx in Hneg; lia].
    rewrite Hname. reflexivity.
Qed.
End BatchSequences.

Lemma texture_map_inverse_of_table_witness :
  let s := run_calls named_calls (GS3DScreenshot_new 0) in
  NoDup (m_textures s)
  /\ forall name i,
       m_texture_map s !! name = Some i
       <-> 0 <= i /\ m_textures s !! Z.to_nat i = Some name.
Proof.
  apply (texture_map_inverse_of_table named_calls 0). vm_compute. discriminate.
Defined.

Lemma textured_triangle_names_last_texture_witness :
  let s := run_calls named_calls (GS3DScreenshot_new 0) in
  exists t,
    m_tris s !! 1%nat = Some t
    /\ stored_as normalized_tri t
    /\ 0 <= texture_index t
    /\ m_textures s !! Z.to_nat (texture_index t) = Some "tex0"
    /\ fmt_obj_line (m_textures s) (ObjUsemtl (Some (texture_index t)))
       = Some ("usemtl " +:+ "tex0" +:+ nl).
Proof.
  apply (textured_triangle_names_last_texture
           [CallAddTri (plain_tri true)]
           [CallSetTextureRegion region_8_15 64 64]
           [CallSetTextureName "tex1"; CallSetTextureName "tex0";
            CallAddTri normalized_tri]
           0 "tex0" normalized_tri).
  - reflexivity.
  - reflexivity.
  - vm_compute. reflexivity.
Defined.

(** ** The files of a batch *)

Section FileFacts.
Context {F : Type} `{FloatOps F} `{FloatFormat F}.
Variable Path_Combine : string -> string -> string.

Implicit Types (s : GS3DScreenshot F) (tri : Tri F) (d : Disk).

(** *** Material markers *)

Lemma usemtl_of_tri_lines (last : option (Tri F)) tri :
  usemtl_of (obj_tri_lines last tri)
  = if material_changes last tri
    then [ObjUsemtl (if texture_enabled tri
                     then Some (texture_index tri) else None)]
    else [].
Proof.
  unfold obj_tri_lines. destruct (verts tri) as [[v1 v2] v3].
  destruct (group_changes last tri), (material_changes last tri); reflexivity.
Qed.

Lemma material_changes_spec (tris : list (Tri F)) (i : nat) tri :
  (i < length tris)%nat ->
  material_changes (last_tri tris i) tri = true
  <-> first_or_material_changes tris i tri.
Proof.
  intros Hi. unfold first_or_material_changes. destruct i as [| j]; simpl.
  - split; [intros _; left; reflexivity | reflexivity].
  - destruct (lookup_lt_is_Some_2 tris j) as [prev Hprev]; [lia |].
    rewrite Hprev. simpl.
    rewrite orb_true_iff, !negb_true_iff, eqb_false_iff, Z.eqb_neq. split.
    + intros Hne. right. exists j, prev. auto.
    + intros [Hz | (j' & prev' & [= <-] & Hl & Hne)]; [discriminate |].
      rewrite Hprev in Hl. injection Hl as <-. exact Hne.
Qed.


(** *** Reading the vertices back *)

Lemma obj_read_tris_scene (tris : list (Tri F)) : forall last sc,
  fold_left obj_read_line (obj_tris_lines last tris) sc
  = {| scene_v :=
         scene_v sc ++ flat_map (fun tri => map obj_v (verts_list (verts tri))) tris;
       scene_vt :=
         scene_vt sc ++ flat_map (fun tri => map obj_vt (verts_list (verts tri))) tris;
       scene_f := scene_f sc ++ map face_132 tris |}.
Proof.
  induction tris as [| tri tris IH]; intros last sc; simpl.
  - rewrite !app_nil_r. destruct sc; reflexivity.
  - rewrite fold_left_app, obj_read_tri_lines, IH. simpl.
    rewrite <- !app_assoc. reflexivity.
Qed.

Lemma length_flat_map_verts {B : Type} (f : Vert F -> B) (tris : list (Tri F)) :
  length (flat_map (fun tri => map f (verts_list (verts tri))) tris)
  = (3 * length tris)%nat.
Proof.
  induction tris as [| tri tris IH]; [reflexivity |].
  simpl flat_map. rewrite length_app, IH, length_map.
  destruct (verts tri) as [[v1 v2] v3]. simpl. lia.
Qed.


(** *** The dump of a batch whose textures were named *)

Lemma fmt_tri_lines_defined (textures : list string) (last : option (Tri F)) tri :
  (texture_enabled tri = true ->
   0 <= texture_index tri < Z.of_nat (length textures)) ->
  Forall (is_Some ∘ fmt_obj_line textures) (obj_tri_lines last tri).
Proof.
  intros Hvalid. unfold obj_tri_lines.
  destruct (verts tri) as [[v1 v2] v3].
  assert (Huse : is_Some (fmt_obj_line textures
            (ObjUsemtl (if texture_enabled tri
                        then Some (texture_index tri) else None)))).
  { destruct (texture_enabled tri); simpl; [| eauto].
    specialize (Hvalid eq_refl).
    destruct (Z.leb_spec 0 (texture_index tri)); [| lia].
    destruct (lookup_lt_is_Some_2 textures (Z.to_nat (texture_index tri)))
      as [name Hname]; [lia |].
    rewrite Hname. simpl. eauto. }
  destruct (group_changes last tri), (material_changes last tri);
    cbn [verts_list map app];
    repeat (apply Forall_cons; split; [simpl; eauto |]);
    apply Forall_nil; exact I.
Qed.

Lemma fmt_tris_lines_defined (textures : list string) (tris : list (Tri F)) :
  Forall (fun tri => texture_enabled tri = true ->
                     0 <= texture_index tri < Z.of_nat (length textures)) tris ->
  forall last,
    Forall (is_Some ∘ fmt_obj_line textures) (obj_tris_lines last tris).
Proof.
  induction 1 as [| tri tris Htri _ IH]; intros last; simpl.
  - constructor.
  - apply Forall_app. split; [apply fmt_tri_lines_defined; exact Htri | apply IH].
Qed.

Lemma DumpOBJ_text_defined (filename : string) s :
  Forall (tri_index_valid s) (m_tris s) ->
  is_Some (DumpOBJ_text filename s).
Proof.
  intros Hvalid. unfold DumpOBJ_text.
  apply fmap_is_Some, mapM_is_Some_2. unfold DumpOBJ_lines.
  apply Forall_cons. split; [simpl; eauto |].
  apply Forall_cons. split; [simpl; eauto |].
  apply fmt_tris_lines_defined. exact Hvalid.
Qed.

(** X11.  For a batch built from a fresh one by calls that name a
    texture before the first triangle with textures is added, the dump
    never reads the texture table outside its bounds: the text of the
    geometry file is defined and [DumpToFile] ends, on every disk. *)
Theorem dump_defined_once_named (cs : list (Call F)) (cur0 : Z)
    (filename : string) d :
  named_before_textured false cs = true ->
  let s := run_calls cs (GS3DScreenshot_new cur0) in
  is_Some (DumpOBJ_text filename s)
  /\ is_Some (DumpToFile Path_Combine filename s d).
Proof.
  intros Hok s.
  assert (Htext : is_Some (DumpOBJ_text filename s)).
  { apply DumpOBJ_text_defined.
    apply (indices_valid_run cs false); [apply indices_valid_new | exact Hok]. }
  split; [exact Htext |].
  destruct Htext as [text Htext].
  unfold DumpToFile, DumpOBJ, DumpMTL.
  destruct (can_open d (OBJ_path Path_Combine filename s)); simpl.
  - rewrite Htext. simpl.
    destruct (can_open d (MTL_path Path_Combine filename s)); eauto.
  - eauto.
Qed.

(** *** The outcomes of a dump *)

(** X12.  A dump that ends returns true exactly when both files could
    be opened.  When the geometry file cannot be opened the disk is
    left as it was, the material file is not written either; when the
    geometry file can be opened and the material file cannot, the
    geometry file stays written.  The files under other paths, and
    which paths can be opened, are never changed. *)
Theorem DumpToFile_outcomes (filename : string) s d (ok : bool) (d1 : Disk) :
  DumpToFile Path_Combine filename s d = Some (ok, d1) ->
  let obj := OBJ_path Path_Combine filename s in
  let mtl := MTL_path Path_Combine filename s in
  (ok = true <-> can_open d obj = true /\ can_open d mtl = true)
  /\ (can_open d obj = false -> d1 = d)
  /\ (can_open d obj = true -> can_open d mtl = false ->
      contents d1 !! obj = DumpOBJ_text filename s
      /\ forall path, path <> obj -> contents d1 !! path = contents d !! path)
  /\ (forall path, path <> obj -> path <> mtl ->
      contents d1 !! path = contents d !! path)
  /\ can_open d1 = can_open d.
Proof.
  intros Hdump obj mtl.
  destruct (DumpToFile_cases Path_Combine _ _ _ _ _ Hdump)
    as [(Hobj & -> & ->) | [(text & Hobj & Htext & Hmtl & -> & ->)
                          | (text & Hobj & Htext & Hmtl & -> & ->)]];
    fold obj in Hobj; fold mtl in Hmtl || idtac; fold obj mtl.
  - split; [split; [discriminate | intros [? _]; congruence] |].
    split; [reflexivity |]. split; [congruence |]. split; reflexivity.
  - split; [split; [discriminate | intros [_ ?]; congruence] |].
    split; [congruence |]. simpl. split; [| split; [| reflexivity]].
    + intros _ _. rewrite Htext. split; [apply lookup_insert_eq |].
      intros path Hp. apply lookup_insert_ne. congruence.
    + intros path Hp _. apply lookup_insert_ne. congruence.
  - split; [split; [auto | reflexivity] |].
    split; [congruence |]. split; [congruence |]. simpl. split; [| reflexivity].
    intros path Hp Hp'. rewrite !lookup_insert_ne by congruence. reflexivity.
Qed.
End FileFacts.

(** ** The material file *)

Lemma string_append_assoc (a b c : string) : (a +:+ b) +:+ c = a +:+ (b +:+ c).
Proof.
  induction a as [| ch a IH]; [reflexivity |].
  change (String ch ((a +:+ b) +:+ c) = String ch (a +:+ (b +:+ c))).
  rewrite IH. reflexivity.
Qed.

Lemma concat_strings_app (l1 l2 : list string) :
  concat_strings (l1 ++ l2) = concat_strings l1 +:+ concat_strings l2.
Proof.
  induction l1 as [| x l1 IH]; [reflexivity |].
  simpl. unfold concat_strings in *. simpl. rewrite IH, string_append_assoc. reflexivity.
Qed.

Section MaterialFacts.
Context {F : Type} `{FloatOps F}.

Implicit Types (s : GS3DScreenshot F) (tri : Tri F).

Lemma DumpMTL_text_textures (textures : list string) :
  concat_strings
    (map (fun texture =>
            "newmtl " +:+ texture +:+ nl +:+ "map_Kd " +:+ texture +:+ nl +:+ nl)
         textures)
  = concat_strings
      (map fmt_mtl_line
           (flat_map (fun texture => [MtlNewmtl texture; MtlMapKd texture])
                     textures)).
Proof.
  induction textures as [| t textures IH]; [reflexivity |].
  cbn [map flat_map app]. unfold concat_strings in *. cbn [fold_right fmt_mtl_line].
  rewrite IH, !string_append_assoc. reflexivity.
Qed.

(** The text of the material file is the text of its directives. *)
Lemma DumpMTL_text_lines s :
  DumpMTL_text s = concat_strings (map fmt_mtl_line (DumpMTL_lines s)).
Proof.
  unfold DumpMTL_text, DumpMTL_lines.
  rewrite DumpMTL_text_textures. reflexivity.
Qed.

Lemma materials_defined_lines s :
  materials_defined (DumpMTL_lines s) = "NoTexture" :: m_textures s.
Proof.
  unfold DumpMTL_lines, materials_defined. cbn [flat_map app]. f_equal.
  induction (m_textures s) as [| t textures IH]; [reflexivity |].
  cbn [flat_map app]. rewrite IH. reflexivity.
Qed.

Lemma materials_used_tri_lines (textures : list string) (last : option (Tri F)) tri :
  (texture_enabled tri = true ->
   0 <= texture_index tri < Z.of_nat (length textures)) ->
  Forall (fun o => exists name,
            o = Some name /\ name ∈ "NoTexture" :: textures)
         (materials_used textures (obj_tri_lines last tri)).
Proof.
  intros Hvalid. unfold obj_tri_lines.
  destruct (verts tri) as [[v1 v2] v3].
  destruct (group_changes last tri), (material_changes last tri);
    cbn [verts_list map app materials_used flat_map obj_v obj_vt];
    try (constructor; fail).
  all: destruct (texture_enabled tri); cbn [app];
    (constructor; [| constructor]).
  all: try (exists "NoTexture"; split; [reflexivity | apply list_elem_of_here]).
  all: specialize (Hvalid eq_refl);
    destruct (Z.leb_spec 0 (texture_index tri)); [| lia];
    destruct (lookup_lt_is_Some_2 textures (Z.to_nat (texture_index tri)))
      as [name Hname]; [lia |];
    exists name; split; [exact Hname |];
    apply list_elem_of_further, list_elem_of_lookup; eauto.
Qed.

Lemma materials_used_tris_lines (textures : list string) (tris : list (Tri F)) :
  Forall (fun tri => texture_enabled tri = true ->
                     0 <= texture_index tri < Z.of_nat (length textures)) tris ->
  forall last,
    Forall (fun o => exists name,
              o = Some name /\ name ∈ "NoTexture" :: textures)
           (materials_used textures (obj_tris_lines last tris)).
Proof.
  induction 1 as [| tri tris Htri _ IH]; intros last; simpl.
  - constructor.
  - unfold materials_used. rewrite flat_map_app. apply Forall_app.
    split; [apply materials_used_tri_lines; exact Htri | apply IH].
Qed.


(** X14.  In a batch built from a fresh one with at most 2^32 calls of
    [SetTextureName], the material file defines no material twice
    exactly when no texture is named NoTexture, the name of the
    material without texture. *)
Theorem material_names_distinct (cs : list (Call F)) (cur0 : Z) :
  Z.of_nat (length (names_of cs)) <= 2 ^ 32 ->
  let s := run_calls cs (GS3DScreenshot_new cur0) in
  NoDup (materials_defined (DumpMTL_lines s)) <-> "NoTexture" ∉ m_textures s.
Proof.
  intros Hlen s. rewrite materials_defined_lines, NoDup_cons.
  assert (Hnodup : NoDup (m_textures s)).
  { apply (table_consistent_run cs (GS3DScreenshot_new cur0));
      [apply table_consistent_new | simpl; lia]. }
  tauto.
Qed.
End MaterialFacts.

(** ** The region of the whole texture *)

Lemma digits2_pos_lower (p : positive) :
  2 ^ (Z.pos (digits2_pos p) - 1) <= Z.pos p.
Proof.
  induction p as [p IH | p IH |]; cbn [digits2_pos].
  - rewrite Pos2Z.inj_succ.
    replace (Z.succ (Z.pos (digits2_pos p)) - 1)
      with (Z.succ (Z.pos (digits2_pos p) - 1)) by lia.
    rewrite Z.pow_succ_r by lia. lia.
  - rewrite Pos2Z.inj_succ.
    replace (Z.succ (Z.pos (digits2_pos p)) - 1)
      with (Z.succ (Z.pos (digits2_pos p) - 1)) by lia.
    rewrite Z.pow_succ_r by lia. lia.
  - reflexivity.
Qed.

Lemma digits2_pos_le (p : positive) (k : Z) :
  0 <= k -> Z.pos p < 2 ^ k -> Z.pos (digits2_pos p) <= k.
Proof.
  intros Hk Hp. pose proof (digits2_pos_lower p) as Hlow.
  destruct (Z_le_gt_dec (Z.pos (digits2_pos p)) k) as [Hle | Hgt]; [exact Hle |].
  assert (2 ^ k <= 2 ^ (Z.pos (digits2_pos p) - 1))
    by (apply Z.pow_le_mono_r; lia).
  lia.
Qed.

Lemma digits2_pos_iter_xO (p k : positive) :
  Z.pos (digits2_pos (Pos.iter xO p k)) = Z.pos (digits2_pos p) + Z.pos k.
Proof.
  induction k as [| k IH] using Pos.peano_ind.
  - cbn [Pos.iter digits2_pos]. rewrite Pos2Z.inj_succ. lia.
  - rewrite Pos.iter_succ. cbn [digits2_pos].
    rewrite !Pos2Z.inj_succ, IH. lia.
Qed.

(** The conversion of a positive integer below 2^24 is a positive
    finite value. *)
Lemma f_of_Z_finite (z : Z) :
  0 < z < 2 ^ 24 ->
  exists m e, f_of_Z (F := binary32) z = S754_finite false m e.
Proof.
  intros Hz. destruct z as [| p | p]; try lia.
  change (f_of_Z (Z.pos p)) with (binary_round 24 128 false p 0).
  assert (Hd : 1 <= Z.pos (digits2_pos p) <= 24)
    by (split; [lia | apply digits2_pos_le; lia]).
  unfold binary_round.
  assert (Hfexp : fexp 24 128 (Z.pos (digits2_pos p) + 0)
                  = Z.pos (digits2_pos p) - 24)
    by (unfold fexp, emin; lia).
  rewrite Hfexp. unfold shl_align.
  assert (Hround : forall mz ez,
            Z.pos (digits2_pos mz) = 24 -> -23 <= ez <= 0 ->
            binary_round_aux 24 128 false (Z.pos mz) ez loc_Exact
            = S754_finite false mz ez).
  { intros mz ez Hmz Hez. unfold binary_round_aux, shr_fexp. cbn [Zdigits2].
    assert (Hf : fexp 24 128 (Z.pos (digits2_pos mz) + ez) = ez)
      by (unfold fexp, emin; lia).
    rewrite Hf, Z.sub_diag.
    cbn [shr shr_record_of_loc shr_m loc_of_shr_record round_nearest_even Zdigits2].
    rewrite Hf, Z.sub_diag. cbn [shr shr_m].
    destruct (Z.leb_spec ez (128 - 24)); [reflexivity | lia]. }
  destruct (Z.pos (digits2_pos p) - 24 - 0) as [| k | k] eqn:Hk; try lia.
  - exists p, 0. apply Hround; lia.
  - eexists _, _. apply Hround; [| lia].
    rewrite digits2_pos_iter_xO. lia.
Qed.

(** The quotient of a finite value by itself is [1.0f]. *)
Lemma binary32_div_self (sx : bool) (m : positive) (e : Z) :
  f_div (F := binary32) (S754_finite sx m e) (S754_finite sx m e) = f_of_Z 1.
Proof.
  change (SFdiv 24 128 (S754_finite sx m e) (S754_finite sx m e)
          = S754_finite false 8388608 (-23)).
  unfold SFdiv, SFdiv_core_binary. cbn [Zdigits2].
  rewrite !Z.sub_diag.
  change (Z.min (fexp 24 128 0) 0) with (-24).
  change (0 - -24) with 24.
  rewrite Z.shiftl_mul_pow2 by lia.
  assert (Hdiv : Z.div_eucl (Z.pos m * 2 ^ 24) (Z.pos m) = (2 ^ 24, 0)).
  { pose proof (Z_div_mod (Z.pos m * 2 ^ 24) (Z.pos m) ltac:(lia)) as Hdm.
    destruct (Z.div_eucl (Z.pos m * 2 ^ 24) (Z.pos m)) as [q r].
    destruct Hdm as [Heq Hr].
    assert (q = 2 ^ 24) by nia. subst q. f_equal. lia. }
  rewrite Hdiv.
  assert (Hloc : new_location (Z.pos m) 0 = loc_Exact).
  { unfold new_location, new_location_even, new_location_odd.
    destruct (Z.even (Z.pos m)); reflexivity. }
  rewrite Hloc. destruct sx; reflexivity.
Qed.

(** The sum of a value and the negative zero is the value. *)
Lemma binary32_add_negative_zero (x : binary32) :
  f_add x (S754_zero true) = x.
Proof. destruct x as [[|] | [|] | | sx m e]; reflexivity. Qed.


(** ** The region of the resolver, without rounding *)


(** ** The colours of the geometry file *)

Lemma channel_in_unit_all :
  forallb (fun r : nat =>
             binary32_in_unit (f_div (f_of_Z (Z.of_nat r)) (f_of_Z 255)))
          (seq 0 256) = true.
Proof. vm_compute. reflexivity. Qed.

Lemma channel_in_unit (r : Z) :
  0 <= r <= 255 ->
  binary32_in_unit (f_div (f_of_Z r) (f_of_Z 255)) = true.
Proof.
  intros Hr. pose proof channel_in_unit_all as Hall.
  rewrite forallb_forall in Hall.
  specialize (Hall (Z.to_nat r)). rewrite Z2Nat.id in Hall by lia.
  apply Hall. apply in_seq. lia.
Qed.

(** X17.  The colours of a vertex directive are between 0 and 1 in
    binary32 for every colour of a vertex, whose channels are bytes;
    the position is the one of the vertex. *)
Theorem obj_v_colours_in_unit (vt : Vert binary32) :
  0 <= Vert.r vt <= 255 -> 0 <= Vert.g vt <= 255 -> 0 <= Vert.b vt <= 255 ->
  exists cr cg cb,
    obj_v vt = ObjV (Vert.x vt) (Vert.y vt) (Vert.z vt) cr cg cb
    /\ binary32_in_unit cr = true
    /\ binary32_in_unit cg = true
    /\ binary32_in_unit cb = true.
Proof.
  intros Hr Hg Hb. eexists _, _, _. split; [reflexivity |].
  repeat split; apply channel_in_unit; assumption.
Qed.

(** ** The setters, one after the other *)

Section Setters.
Context {F : Type} `{FloatOps F}.

Lemma SetTextureRegion_twice (s : GS3DScreenshot F)
    (region1 region2 : TextureRegion) (w1 h1 w2 h2 : Z) :
  SetTextureRegion region2 w2 h2 (SetTextureRegion region1 w1 h1 s)
  = SetTextureRegion region2 w2 h2 s.
Proof. reflexivity. Qed.

Lemma SetTextureRegion_SetTextureName (s : GS3DScreenshot F)
    (region : TextureRegion) (w h : Z) (new_name : string) :
  SetTextureRegion region w h (SetTextureName new_name s)
  = SetTextureName new_name (SetTextureRegion region w h s).
Proof.
  unfold SetTextureName. cbn [m_textures m_texture_map SetTextureRegion].
  destruct (map_insert _ _ _) as [[? ?] ?]. reflexivity.
Qed.

(** X18.  In a sequence of calls, a [SetTextureRegion] that is
    followed at once by another one has no effect, and a
    [SetTextureName] and a [SetTextureRegion] that follow each other
    can be exchanged: the batch after the sequence is the same. *)
Theorem setters_compose (cs1 cs2 : list (Call F)) (s : GS3DScreenshot F)
    (region1 region2 : TextureRegion) (w1 h1 w2 h2 : Z) (new_name : string) :
  run_calls (cs1 ++ CallSetTextureRegion region1 w1 h1
                 :: CallSetTextureRegion region2 w2 h2 :: cs2) s
  = run_calls (cs1 ++ CallSetTextureRegion region2 w2 h2 :: cs2) s
  /\ run_calls (cs1 ++ CallSetTextureName new_name
                    :: CallSetTextureRegion region1 w1 h1 :: cs2) s
     = run_calls (cs1 ++ CallSetTextureRegion region1 w1 h1
                      :: CallSetTextureName new_name :: cs2) s.
Proof.
  rewrite !run_calls_app.
  change (run_calls (?c :: ?d :: cs2) ?s0)
    with (run_calls cs2 (call d (call c s0))).
  change (run_calls (?c :: cs2) ?s0) with (run_calls cs2 (call c s0)).
  cbn [call]. rewrite SetTextureRegion_SetTextureName. split; reflexivity.
Qed.
End Setters.

(** ** The further statements on concrete batches *)

Lemma region_repeat_size_aligned_witness :
  let r := GetTextureRegionForCLAMP clamp_repeat_8_15 64 32 in
  u_min r = 8 /\ Width r = 8 /\ is_pow2 (Width r) /\ u_min r mod Width r = 0.
Proof.
  assert (Hwf : clamp_wf clamp_repeat_8_15)
    by (unfold clamp_wf, is_field10; simpl; lia).
  destruct (region_repeat_size_aligned clamp_repeat_8_15 64 32 Hwf) as [Hu _].
  apply Hu.
  - reflexivity.
  - lia.
  - exists 3. split; [lia | reflexivity].
  - reflexivity.
  - simpl. lia.
Defined.


Lemma dump_defined_once_named_witness :
  let s := run_calls named_calls (GS3DScreenshot_new 0) in
  is_Some (DumpOBJ_text "shot" s)
  /\ is_Some (DumpToFile join_path "shot" s locked_disk).
Proof.
  apply (dump_defined_once_named join_path named_calls 0 "shot" locked_disk).
  reflexivity.
Defined.

Lemma DumpToFile_outcomes_witness :
  exists d1,
    DumpToFile join_path "shot" culled_batch locked_disk = Some (false, d1)
    /\ d1 = locked_disk.
Proof.
  eexists. split; [reflexivity |].
  destruct (DumpToFile_outcomes join_path "shot" culled_batch locked_disk
              false _ eq_refl) as (_ & Hsame & _).
  apply Hsame. reflexivity.
Defined.


Lemma material_names_distinct_witness :
  let s := run_calls named_calls (GS3DScreenshot_new 0) in
  NoDup (materials_defined (DumpMTL_lines s)) <-> "NoTexture" ∉ m_textures s.
Proof.
  apply (material_names_distinct named_calls 0). vm_compute. discriminate.
Defined.



Lemma obj_v_colours_in_unit_witness :
  exists cr cg cb,
    obj_v (vert_at 1 0 (f_of_Z 0, f_of_Z 1))
    = ObjV (f_of_Z 1) (f_of_Z 0) (f_of_Z 0) cr cg cb
    /\ binary32_in_unit cr = true
    /\ binary32_in_unit cg = true
    /\ binary32_in_unit cb = true.
Proof.
  apply (obj_v_colours_in_unit (vert_at 1 0 (f_of_Z 0, f_of_Z 1))); simpl; lia.
Defined.

(** ** Parameters out of order, and the empty batch *)

(** X19.  In region-clamp mode, when MIN is not below the upper bound
    min(MAX, dim - 1), as when MIN and MAX are out of order or MIN is
    outside the texture, the region on the axis is the one texel at
    this upper bound: its two bounds are equal and its size is 1. *)
Theorem region_clamp_collapses (c : GIFRegCLAMP) (twidth theight : Z) :
  clamp_wf c ->
  let r := GetTextureRegionForCLAMP c twidth theight in
  (WMS c = CLAMP_REGION_CLAMP -> 1 <= twidth < 2 ^ 32 ->
   Z.min (MAXU c) (twidth - 1) <= MINU c ->
   u_min r = Z.min (MAXU c) (twidth - 1)
   /\ u_max r = Z.min (MAXU c) (twidth - 1) /\ Width r = 1)
  /\
  (WMT c = CLAMP_REGION_CLAMP -> 1 <= theight < 2 ^ 32 ->
   Z.min (MAXV c) (theight - 1) <= MINV c ->
   v_min r = Z.min (MAXV c) (theight - 1)
   /\ v_max r = Z.min (MAXV c) (theight - 1) /\ Height r = 1).
Proof.
  intros (Hminu & Hmaxu & Hminv & Hmaxv) r.
  split; intros Hmode Hdim Hle.
  - destruct (GetTextureRegionForCLAMP_u c twidth theight) as [Hlo Hhi].
    pose proof (axis_region_clamp (MINU c) (MAXU c) twidth Hminu Hmaxu Hdim)
      as Hspec.
    rewrite <- Hmode in Hspec. cbv zeta in Hlo, Hhi.
    rewrite <- Hlo, <- Hhi in Hspec. fold r in Hspec.
    destruct Hspec as (Hh & Hl & _). unfold Width.
    replace (u_max r - u_min r + 1) with 1 by lia.
    split; [lia |]. split; [lia | reflexivity].
  - destruct (GetTextureRegionForCLAMP_v c twidth theight) as [Hlo Hhi].
    pose proof (axis_region_clamp (MINV c) (MAXV c) theight Hminv Hmaxv Hdim)
      as Hspec.
    rewrite <- Hmode in Hspec. cbv zeta in Hlo, Hhi.
    rewrite <- Hlo, <- Hhi in Hspec. fold r in Hspec.
    destruct Hspec as (Hh & Hl & _). unfold Height.
    replace (v_max r - v_min r + 1) with 1 by lia.
    split; [lia |]. split; [lia | reflexivity].
Qed.

Lemma region_clamp_collapses_witness :
  let r := GetTextureRegionForCLAMP clamp_region_20_300 256 64 in
  v_min r = 40 /\ v_max r = 40 /\ Height r = 1.
Proof.
  assert (Hwf : clamp_wf clamp_region_20_300)
    by (unfold clamp_wf, is_field10; simpl; lia).
  destruct (region_clamp_collapses clamp_region_20_300 256 64 Hwf) as [_ Hv].
  apply Hv; [reflexivity | lia | simpl; lia].
Defined.

Lemma string_append_nil_r (a : string) : a +:+ "" = a.
Proof.
  induction a as [| ch a IH]; [reflexivity |].
  change (String ch (a +:+ "") = String ch a). rewrite IH. reflexivity.
Qed.

Section EmptyBatch.
Context {F : Type} `{FloatOps F} `{FloatFormat F}.
Variable Path_Combine : string -> string -> string.

(** X20.  The dump of a batch without a triangle and without a texture
    still writes both files when they can be opened: the geometry file
    holds the header and the reference to the material file and
    nothing else, the material file the material without texture
    alone, and the dump returns true. *)
Theorem dump_empty_batch (filename : string) (s : GS3DScreenshot F) (d : Disk) :
  IsEmpty s = true -> m_textures s = [] ->
  can_open d (OBJ_path Path_Combine filename s) = true ->
  can_open d (MTL_path Path_Combine filename s) = true ->
  let obj_text :=
    "# PCSX2 3D Screenshot" +:+ nl +:+ "mtllib " +:+ filename +:+ ".mtl"
    +:+ nl +:+ nl in
  let mtl_text := "newmtl NoTexture" +:+ nl +:+ "Kd 1 1 1" +:+ nl +:+ nl in
  DumpOBJ_text filename s = Some obj_text
  /\ DumpMTL_text s = mtl_text
  /\ DumpToFile Path_Combine filename s d
     = Some (true, write_file (MTL_path Path_Combine filename s) mtl_text
                     (write_file (OBJ_path Path_Combine filename s) obj_text d)).
Proof.
  intros Hempty Htab Hobj Hmtl obj_text mtl_text.
  assert (Htris : m_tris s = []).
  { unfold IsEmpty in Hempty. destruct (m_tris s); [reflexivity | discriminate]. }
  assert (Hot : DumpOBJ_text filename s = Some obj_text).
  { unfold DumpOBJ_text, DumpOBJ_lines. rewrite Htris. cbn.
    unfold concat_strings. cbn [fold_right]. subst obj_text.
    rewrite !string_append_nil_r. reflexivity. }
  assert (Hmt : DumpMTL_text s = mtl_text).
  { unfold DumpMTL_text. rewrite Htab. reflexivity. }
  split; [exact Hot |]. split; [exact Hmt |].
  unfold DumpToFile, DumpOBJ, DumpMTL.
  rewrite Hobj, Hot. simpl. rewrite Hmtl, Hmt. reflexivity.
Qed.
End EmptyBatch.

Lemma dump_empty_batch_witness :
  exists d1,
    DumpToFile join_path "shot" (GS3DScreenshot_new (F := binary32) 7) open_disk
    = Some (true, d1)
    /\ contents d1 !! "/shot.mtl"
       = Some ("newmtl NoTexture" +:+ nl +:+ "Kd 1 1 1" +:+ nl +:+ nl).
Proof.
  destruct (dump_empty_batch join_path "shot"
              (GS3DScreenshot_new (F := binary32) 7) open_disk
              eq_refl eq_refl eq_refl eq_refl) as (_ & _ & Hdump).
  eexists. split; [exact Hdump |]. reflexivity.
Defined.
